(** * Verification of [analyze.py]: the benchmark-log aggregator

    [parse_logs] reads a log line by line, keeps a stack of open tasks
    ([active_tasks]), moves a task to [all_tasks] when its completion line
    is seen, counts [msm]/[fft] events on the innermost open task, and
    finally prints the longest instance of one task name.

    The development is a shallow embedding: Python [str] is [string]
    (ASCII text), Python [int] is [Z], the per-task counter dicts are
    [gmap string nat], the two Python lists are Rocq lists in Python order
    (index 0 first, [append] adds at the end, [[-1]] is the last element),
    and a raised exception is the [Raise] branch of [result]. The input is
    the list of lines the file iterator yields, each with its terminator
    when it has one. Every task dict is in one list at a time and its
    counter dicts are its own, so tasks are plain values. *)

From Stdlib Require Import ZArith String Ascii List Lia Bool Sorted Permutation.
From stdpp Require Import base option list gmap strings.

Local Open Scope string_scope.
Local Open Scope Z_scope.
Local Open Scope list_scope.

(** ** Exceptions *)

(** The three exception classes [parse_logs] can raise on a readable file. *)
Inductive exn : Type :=
  | ValueError   (* int() of a bad literal; unpacking a list of the wrong length *)
  | IndexError   (* list index out of range *)
  | KeyError.    (* dict key absent *)

Inductive result (A : Type) : Type :=
  | OK (a : A)
  | Raise (e : exn).
Arguments OK {A} a.
Arguments Raise {A} e.

(** Sequencing: the first exception raised ends the computation. The
    notation [x ← r; k] is the one of the monad classes. *)
#[global] Instance result_ret : MRet result := fun _ a => OK a.
#[global] Instance result_bind : MBind result := fun _ _ k r =>
  match r with
  | OK a => k a
  | Raise e => Raise e
  end.

(** ** Python string operations *)

Module Py.

(** [s.startswith(p)] *)
Fixpoint startswith (s p : string) {struct p} : bool :=
  match p with
  | EmptyString => true
  | String a p' =>
      match s with
      | EmptyString => false
      | String b s' => if Ascii.eqb a b then startswith s' p' else false
      end
  end.

(** [sub in s] *)
Fixpoint contains (sub s : string) : bool :=
  startswith s sub ||
  match s with
  | EmptyString => false
  | String _ s' => contains sub s'
  end.

(** [s[n:]] for a literal [n >= 0]: shorter strings give the empty string. *)
Fixpoint slice_from (n : nat) (s : string) : string :=
  match n, s with
  | O, _ => s
  | S _, EmptyString => EmptyString
  | S n', String _ s' => slice_from n' s'
  end.

(** [s[:-1]]: all but the last character; the empty string stays empty. *)
Fixpoint drop_last (s : string) : string :=
  match s with
  | EmptyString => EmptyString
  | String c s' =>
      match s' with
      | EmptyString => EmptyString
      | String _ _ => String c (drop_last s')
      end
  end.

(** [s.partition(sep)] restricted to the found case: the text before the
    leftmost occurrence of [sep] and the text after it. *)
Fixpoint partition (sep s : string) : option (string * string) :=
  if startswith s sep then Some (EmptyString, slice_from (String.length sep) s)
  else
    match s with
    | EmptyString => None
    | String c s' =>
        match partition sep s' with
        | Some (before, after) => Some (String c before, after)
        | None => None
        end
    end.

(** [s.split(sep)] for a non-empty separator: cut at the leftmost
    occurrence, then split what follows; occurrences do not overlap.
    The recursion is on the text left, which gets shorter at every cut
    ([fuel] bounds it). *)
Fixpoint split_fuel (fuel : nat) (sep s : string) : list string :=
  match fuel with
  | O => [s]
  | S fuel' =>
      match partition sep s with
      | None => [s]
      | Some (before, after) => before :: split_fuel fuel' sep after
      end
  end.

Definition split (sep s : string) : list string :=
  split_fuel (S (String.length s)) sep s.

(** Whitespace of [str.split()] and [str.isspace()] on ASCII text:
    TAB, LF, VT, FF, CR, FS, GS, RS, US and the space. *)
Definition isspace (c : ascii) : bool :=
  let n := nat_of_ascii c in
  ((9 <=? n) && (n <=? 13) || (28 <=? n) && (n <=? 31) || (n =? 32))%nat.

(** [s.split()]: the maximal runs of non-whitespace characters, in order.
    [cur] is the token being read, latest character first. *)
Fixpoint split_ws_from (cur : list ascii) (s : string) : list string :=
  match s with
  | EmptyString =>
      match cur with
      | [] => []
      | _ => [string_of_list_ascii (rev cur)]
      end
  | String c s' =>
      if isspace c then
        match cur with
        | [] => split_ws_from [] s'
        | _ => string_of_list_ascii (rev cur) :: split_ws_from [] s'
        end
      else split_ws_from (c :: cur) s'
  end.

Definition split_ws (s : string) : list string := split_ws_from [] s.

(** Whitespace skipped by [int()] around an ASCII literal: TAB, LF, VT, FF,
    CR and the space (the four separators FS..US are not skipped). *)
Definition int_space (c : ascii) : bool :=
  let n := nat_of_ascii c in
  ((9 <=? n) && (n <=? 13) || (n =? 32))%nat.

Definition digit_value (c : ascii) : option Z :=
  let n := nat_of_ascii c in
  if ((48 <=? n) && (n <=? 57))%nat then Some (Z.of_nat n - 48) else None.

Fixpoint all_int_space (s : string) : bool :=
  match s with
  | EmptyString => true
  | String c s' => int_space c && all_int_space s'
  end.

(** What the digit scanner saw last. *)
Inductive seen : Type := SeenNothing | SeenDigit | SeenUnderscore.

(** The digits of a base-10 literal: decimal digits, single underscores
    allowed between two digits only, then optional trailing whitespace up
    to the end of the text. [acc] is the value read so far. *)
Fixpoint int_digits (prev : seen) (acc : Z) (s : string) : option Z :=
  match s with
  | EmptyString =>
      match prev with
      | SeenDigit => Some acc
      | _ => None
      end
  | String c s' =>
      match digit_value c with
      | Some d => int_digits SeenDigit (10 * acc + d) s'
      | None =>
          if Ascii.eqb c "_" then
            match prev with
            | SeenDigit => int_digits SeenUnderscore acc s'
            | _ => None
            end
          else
            match prev with
            | SeenDigit => if all_int_space s then Some acc else None
            | _ => None
            end
      end
  end.

Definition int_signed (s : string) : option Z :=
  match s with
  | String "+" s' => int_digits SeenNothing 0 s'
  | String "-" s' => Z.opp <$> int_digits SeenNothing 0 s'
  | _ => int_digits SeenNothing 0 s
  end.

Fixpoint int_lstrip (s : string) : string :=
  match s with
  | String c s' => if int_space c then int_lstrip s' else s
  | EmptyString => s
  end.

(** [int(s)]: leading whitespace, an optional sign, the digits, trailing
    whitespace. [None] stands for the [ValueError] of a text that is not
    such a literal. (The interpreter's configurable cap on the number of
    digits, also a [ValueError], is left out.) *)
Definition int (s : string) : option Z := int_signed (int_lstrip s).

End Py.

(** The line terminator, as ["\n"] in the source language. *)
Definition nl : string := String (ascii_of_nat 10) EmptyString.


(** ** Data model *)

(** One task dict, as created on a start line:
    [{"task_name": .., "start_time": .., "end_time": -1, "duration": -1,
      "msm": {}, "fft": {}}]. *)
Record task : Type := Task {
  task_name : string;
  start_time : Z;
  end_time : Z;
  duration : Z;
  msm : gmap string nat;
  fft : gmap string nat
}.

(** The two lists of [parse_logs], in Python order. *)
Record state : Type := State {
  active_tasks : list task;
  all_tasks : list task
}.

Definition initial : state := State [] [].

(** The two keys of a task dict that hold a counter dict. *)
Inductive op_kind : Type := Msm | Fft.

Definition op_name (k : op_kind) : string :=
  match k with
  | Msm => "msm"
  | Fft => "fft"
  end.

(** [task[operation]] for the token of an operation line. The token starts
    with [msm] or [fft] as the line does ([op_token_prefix] below), so of
    the six keys of a task dict only those two can be hit
    ([other_keys_out_of_reach]); any other token is an absent key. *)
Definition counter_key (operation : string) : option op_kind :=
  if String.eqb operation "msm" then Some Msm
  else if String.eqb operation "fft" then Some Fft
  else None.

Definition counters (k : op_kind) (t : task) : gmap string nat :=
  match k with
  | Msm => msm t
  | Fft => fft t
  end.

Definition set_counters (k : op_kind) (m : gmap string nat) (t : task) : task :=
  match k with
  | Msm => Task (task_name t) (start_time t) (end_time t) (duration t) m (fft t)
  | Fft => Task (task_name t) (start_time t) (end_time t) (duration t) (msm t) m
  end.

(** [if size in d: d[size] += 1 else: d[size] = 1] *)
Definition count_one (size : string) (d : gmap string nat) : gmap string nat :=
  match d !! size with
  | Some n => <[size := S n]> d
  | None => <[size := 1%nat]> d
  end.

Definition new_task (name : string) (current_time : Z) : task :=
  Task name current_time (-1) (-1) ∅ ∅.

(** The two assignments to [active_tasks[-1]] on a completion line. *)
Definition close_task (current_time : Z) (t : task) : task :=
  Task (task_name t) (start_time t) current_time
       (current_time - start_time t) (msm t) (fft t).

(** ** List operations of the source *)

(** [l[i]] for [i >= 0]. *)
Definition item {A} (l : list A) (i : nat) : result A :=
  match l !! i with
  | Some x => OK x
  | None => Raise IndexError
  end.

(** A non-empty list seen from its end: what [l[-1]] reads and what
    [l.pop()] leaves and returns. [None] on the empty list. *)
Fixpoint pop {A} (l : list A) : option (list A * A) :=
  match l with
  | [] => None
  | x :: l' =>
      match pop l' with
      | None => Some ([], x)
      | Some (rest, top) => Some (x :: rest, top)
      end
  end.

(** ** The loop body *)

(** [int(line.split("]")[0][3:])] *)
Definition timestamp (line : string) : result Z :=
  piece ← item (Py.split "]" line) 0;
  match Py.int (Py.slice_from 3 piece) with
  | Some t => OK t
  | None => Raise ValueError
  end.

(** [line.split("Start ")[1][:-1]] *)
Definition start_name (line : string) : result string :=
  piece ← item (Py.split "Start " line) 1;
  OK (Py.drop_last piece).

(** One iteration of [for line in f]. *)
Definition ingest (st : state) (line : string) : result state :=
  if Py.startswith line "[T" then
    current_time ← timestamp line;
    if Py.contains "Start" line then
      name ← start_name line;
      OK (State (active_tasks st ++ [new_task name current_time]) (all_tasks st))
    else if Py.contains "Done" line then
      match pop (active_tasks st) with
      | None => Raise IndexError
      | Some (rest, top) =>
          OK (State rest (all_tasks st ++ [close_task current_time top]))
      end
    else OK st
  else if Py.startswith line "msm" || Py.startswith line "fft" then
    match Py.split_ws line with
    | [operation; size] =>
        match pop (active_tasks st) with
        | None => OK st
        | Some (rest, top) =>
            match counter_key operation with
            | None => Raise KeyError
            | Some k =>
                OK (State (rest ++ [set_counters k (count_one size (counters k top)) top])
                          (all_tasks st))
            end
        end
    | _ => Raise ValueError
    end
  else OK st.

(** The whole loop, from a given state. *)
Fixpoint ingest_all (st : state) (lines : list string) : result state :=
  match lines with
  | [] => OK st
  | line :: rest => st' ← ingest st line; ingest_all st' rest
  end.

(** ** Selection of the slowest instance *)

(** [sorted(l, key=key)]: the stable sort by ascending key. The result of a
    stable sort is determined by the list and the key, so insertion from
    the right, each element going before the first one whose key is not
    smaller, computes it. *)
Fixpoint insert_by {A} (key : A → Z) (x : A) (l : list A) : list A :=
  match l with
  | [] => [x]
  | y :: l' => if key x <=? key y then x :: y :: l' else y :: insert_by key x l'
  end.

Fixpoint sorted {A} (key : A → Z) (l : list A) : list A :=
  match l with
  | [] => []
  | x :: l' => insert_by key x (sorted key l')
  end.

(** The loop with [break]: the first task of that name, if any. *)
Fixpoint first_named (name : string) (l : list task) : option task :=
  match l with
  | [] => None
  | t :: l' => if String.eqb (task_name t) name then Some t else first_named name l'
  end.

(** The task printed for [name]: sort by [duration * -1], take the first
    of that name. *)
Definition slowest (name : string) (tasks : list task) : option task :=
  first_named name (sorted (fun t => duration t * -1) tasks).

(** [parse_logs] on the lines the file iterator yields: the printed task,
    [None] when nothing is printed, or the exception that ended the run
    (raised inside the loop, hence before anything is printed). *)
Definition parse_logs (lines : list string) : result (option task) :=
  st ← ingest_all initial lines;
  OK (slowest "committing to advice columns" (all_tasks st)).


(** ** Line shapes, as the loop body tests them *)

Definition is_op (line : string) : bool :=
  negb (Py.startswith line "[T") &&
  (Py.startswith line "msm" || Py.startswith line "fft").

(** The line takes the branch that pushes a task. *)
Definition is_start (line : string) : bool :=
  Py.startswith line "[T" && Py.contains "Start" line.

(** The line takes the branch that pops a task. *)
Definition is_done (line : string) : bool :=
  Py.startswith line "[T" && negb (Py.contains "Start" line) && Py.contains "Done" line.

(** The nesting depth after [lines], starting at [depth]: a start line
    opens a level, a completion line closes one; [None] when a completion
    line comes at depth 0, with no start line left to match. *)
Fixpoint nesting (depth : nat) (lines : list string) : option nat :=
  match lines with
  | [] => Some depth
  | line :: rest =>
      if is_start line then nesting (S depth) rest
      else if is_done line then
        match depth with
        | O => None
        | S d => nesting d rest
        end
      else nesting depth rest
  end.

(** Every completion line closes a start line before it, and every start
    line is closed by the end of the log. *)
Definition well_nested (lines : list string) : Prop :=
  nesting 0 lines = Some 0%nat.

Fixpoint count (p : string → bool) (lines : list string) : nat :=
  match lines with
  | [] => 0%nat
  | line :: rest => ((if p line then 1 else 0) + count p rest)%nat
  end.

(** The line raises nothing on its own account: its timestamp and task
    name can be read, or its two tokens name a counter. What is left to
    fail is a completion line met with no task open. *)
Definition readable (line : string) : bool :=
  if Py.startswith line "[T" then
    match timestamp line with
    | OK _ =>
        if Py.contains "Start" line then
          match start_name line with
          | OK _ => true
          | Raise _ => false
          end
        else true
    | Raise _ => false
    end
  else if Py.startswith line "msm" || Py.startswith line "fft" then
    match Py.split_ws line with
    | [operation; _] =>
        match counter_key operation with
        | Some _ => true
        | None => false
        end
    | _ => false
    end
  else true.

(** The selection as one pass from the end of the list with a running
    maximum: a task replaces the maximum met so far when it lasted at
    least as long, so that of two equal ones the earlier stays. *)
Fixpoint scan_slowest (name : string) (l : list task) : option task :=
  match l with
  | [] => None
  | t :: l' =>
      if String.eqb (task_name t) name then
        match scan_slowest name l' with
        | Some best => if duration best <=? duration t then Some t else Some best
        | None => Some t
        end
      else scan_slowest name l'
  end.

(** The text [int] is applied to on a timed line: from index 3 up to the
    first []], or to the end of the line when it has none. *)
Definition stamp_text (line : string) : string :=
  Py.slice_from 3
    match Py.partition "]" line with
    | Some (before, _) => before
    | None => line
    end.

(** The timestamp text as the specification words it: what stands between
    the marker [[T] and the first []] after it. *)
Definition spec_stamp_text (line : string) : option string :=
  if Py.startswith line "[T" then
    match Py.partition "]" (Py.slice_from 2 line) with
    | Some (digits, _) => Some digits
    | None => None
    end
  else None.


(** The task name as C9 words it: all the text after the first [Start ],
    less its last character. *)
Definition spec_start_name (line : string) : option string :=
  match Py.partition "Start " line with
  | Some (_, after) => Some (Py.drop_last after)
  | None => None
  end.

(** Where a task comes from: the start line that opened it, the
    completion line that closed it. *)
Definition opened_by (lines : list string) (t : task) (i : nat) : Prop :=
  ∃ line, lines !! i = Some line ∧ is_start line = true ∧
          timestamp line = OK (start_time t) ∧ start_name line = OK (task_name t).

Definition closed_by (lines : list string) (t : task) (j : nat) : Prop :=
  ∃ line, lines !! j = Some line ∧ is_done line = true ∧
          timestamp line = OK (end_time t).

Record provenance (lines : list string) (st : state) : Prop := {
  open_from : ∀ t, In t (active_tasks st) → ∃ i, opened_by lines t i;
  closed_from : ∀ t, In t (all_tasks st) →
    duration t = end_time t - start_time t ∧
    ∃ i j, (i < j)%nat ∧ opened_by lines t i ∧ closed_by lines t j
}.

Fixpoint no_space (p : string) : bool :=
  match p with
  | EmptyString => true
  | String c p' => negb (Py.isspace c) && no_space p'
  end.

(** Keys never decrease along the list. *)
Definition ascending {A} (key : A → Z) : list A → Prop :=
  StronglySorted (fun a b => key a <= key b).

(** The statement of C3 as it is written: the line pops the innermost open
    task, stamps it with some time [t] and appends it to the closed tasks. *)
Definition closes_innermost (st : state) (line : string) : Prop :=
  ∃ rest top t,
    active_tasks st = rest ++ [top] ∧
    ingest st line =
      OK (State rest
            (all_tasks st ++
               [Task (task_name top) (start_time top) t (t - start_time top)
                     (msm top) (fft top)])).

(** The first end-to-end scenario of the specification, in the line
    format the code reads (a character between [T] and the digits). *)
Definition scenario1 : list string :=
  [ "[T 0] Start outer" +:+ nl; "[T 5] Start inner" +:+ nl;
    "msm 10" +:+ nl; "msm 10" +:+ nl; "[T 8] Done inner" +:+ nl;
    "fft 20" +:+ nl; "[T 20] Done outer" +:+ nl ].

(** The same scenario in the format the specification gives, the digits
    right after the [T]. *)
Definition scenario1_as_specified : list string :=
  [ "[T0] Start outer" +:+ nl; "[T5] Start inner" +:+ nl;
    "msm 10" +:+ nl; "msm 10" +:+ nl; "[T8] Done inner" +:+ nl;
    "fft 20" +:+ nl; "[T20] Done outer" +:+ nl ].

(** ** A task and its two lines *)




(** ** Counting events *)

(** The number of events a counter dict holds: the sum of its counts. *)
Definition dict_total (d : gmap string nat) : nat :=
  map_fold (fun _ n acc => (n + acc)%nat) 0%nat d.

(** The events of kind [k] held by the tasks of a list, and by both lists
    of the state. *)
Definition kind_total (k : op_kind) (tasks : list task) : nat :=
  sum_list_with (fun t => dict_total (counters k t)) tasks.

Definition state_total (k : op_kind) (st : state) : nat :=
  (kind_total k (active_tasks st) + kind_total k (all_tasks st))%nat.

Definition op_kind_eqb (a b : op_kind) : bool :=
  match a, b with
  | Msm, Msm | Fft, Fft => true
  | _, _ => false
  end.

(** The counter an operation line names, if it is one. *)
Definition line_kind (line : string) : option op_kind :=
  if is_op line then
    match Py.split_ws line with
    | [operation; _] => counter_key operation
    | _ => None
    end
  else None.

(** The lines of [lines] that name the counter [k] and are met at a depth
    above zero, the depth being [depth] at the start. *)
Fixpoint counted (k : op_kind) (depth : nat) (lines : list string) : nat :=
  match lines with
  | [] => 0%nat
  | line :: rest =>
      if is_start line then counted k (S depth) rest
      else if is_done line then counted k (pred depth) rest
      else
        ((match line_kind line with
          | Some k' => if op_kind_eqb k' k && (0 <? depth)%nat then 1 else 0
          | None => 0
          end) + counted k depth rest)%nat
  end.

(** Open tasks carry the placeholder [-1] for both fields set at closing. *)
Definition unset_times (t : task) : Prop := end_time t = -1 ∧ duration t = -1.

(** No label of the task is kept with a count of zero. *)
Definition counts_positive (t : task) : Prop :=
  ∀ k size n, counters k t !! size = Some n → (1 <= n)%nat.

(** Timestamps never go back along the log, from one timed line (a line
    that begins with [[T], the only ones whose timestamp is read) to a
    later one. *)
Definition timestamps_monotone (lines : list string) : Prop :=
  ∀ i j li lj ti tj,
    (i < j)%nat → lines !! i = Some li → lines !! j = Some lj →
    Py.startswith li "[T" = true → Py.startswith lj "[T" = true →
    timestamp li = OK ti → timestamp lj = OK tj → ti <= tj.

(** Two tasks are one task seen at two moments while it is open: only
    the counters may differ. *)
Definition same_identity (t t' : task) : Prop :=
  task_name t' = task_name t ∧ start_time t' = start_time t ∧
  end_time t' = end_time t ∧ duration t' = duration t.

(** The name [parse_logs] looks for. *)
Definition target : string := "committing to advice columns".

(** * Sample runs *)

Example int_plain : Py.int "123" = Some 123.
Proof. reflexivity. Qed.

Example int_spaces_sign_underscore : Py.int (" -12_3" +:+ nl) = Some (-123).
Proof. reflexivity. Qed.

Example int_rejects :
  Py.int "" = None ∧ Py.int "1__2" = None ∧ Py.int "12_" = None ∧
  Py.int "_12" = None ∧ Py.int "+ 1" = None ∧ Py.int "12 3" = None ∧
  Py.int "0x10" = None ∧ Py.int "1.5" = None.
Proof. repeat split; reflexivity. Qed.

Example split_at_marker :
  Py.split "Start " "[T 1] Start Quick Start guide" = ["[T 1] "; "Quick "; "guide"].
Proof. reflexivity. Qed.

Example split_no_overlap : Py.split "aa" "aaa" = [""; "a"].
Proof. reflexivity. Qed.

Example split_ws_tokens :
  Py.split_ws ("msm  10 " +:+ nl) = ["msm"; "10"] ∧ Py.split_ws (" " +:+ nl) = [].
Proof. split; reflexivity. Qed.

Example scenario1_run :
  ingest_all initial scenario1 =
    OK (State [] [ Task "inner" 5 8 3 {["10" := 2%nat]} ∅;
                   Task "outer" 0 20 20 ∅ {["20" := 1%nat]} ]).
Proof. vm_compute. reflexivity. Qed.

Example scenario1_query :
  (st ← ingest_all initial scenario1; OK (slowest "outer" (all_tasks st)))
  = OK (Some (Task "outer" 0 20 20 ∅ {["20" := 1%nat]})).
Proof. vm_compute. reflexivity. Qed.

(** In the format the specification gives the first line already fails:
    [int] is applied to the empty text left after index 3. *)
Example scenario1_as_specified_run :
  parse_logs scenario1_as_specified = Raise ValueError.
Proof. vm_compute. reflexivity. Qed.

Example op_line_before_any_start : ingest initial ("msm 10" +:+ nl) = OK initial.
Proof. reflexivity. Qed.

Example query_not_found : slowest "absent" [Task "work" 0 10 10 ∅ ∅] = None.
Proof. reflexivity. Qed.

(** * Basic facts *)

Section Result.
Context {A B : Type}.

Lemma bind_OK (a : A) (k : A → result B) : (x ← OK a; k x) = k a.
Proof. reflexivity. Qed.

Lemma bind_Raise (e : exn) (k : A → result B) : (x ← Raise e; k x) = Raise e.
Proof. reflexivity. Qed.

Lemma bind_OK_inv (r : result A) (k : A → result B) (b : B) :
  (x ← r; k x) = OK b → ∃ a, r = OK a ∧ k a = OK b.
Proof. destruct r as [a|e]; [eauto | discriminate]. Qed.
End Result.

Section Pop.
Context {A : Type}.
Implicit Types (l rest : list A) (x : A).

Lemma pop_snoc l x : pop (l ++ [x]) = Some (l, x).
Proof.
  induction l as [|y l IH]; simpl; [reflexivity|].
  rewrite IH. reflexivity.
Qed.

Lemma pop_None l : pop l = None → l = [].
Proof.
  destruct l as [|y l]; simpl; [reflexivity|].
  destruct (pop l) as [[? ?]|]; discriminate.
Qed.

Lemma pop_Some l rest x : pop l = Some (rest, x) → l = rest ++ [x].
Proof.
  revert rest. induction l as [|y l IH]; intros rest; simpl; [discriminate|].
  destruct (pop l) as [[r t]|] eqn:E; intros [= <- <-].
  - simpl. f_equal. apply IH. reflexivity.
  - apply pop_None in E. subst l. reflexivity.
Qed.
End Pop.

Lemma ingest_all_app st pre post :
  ingest_all st (pre ++ post) = (st' ← ingest_all st pre; ingest_all st' post).
Proof.
  revert st. induction pre as [|l pre IH]; intros st; simpl; [reflexivity|].
  destruct (ingest st l) as [st1|e]; [|reflexivity].
  rewrite !bind_OK. apply IH.
Qed.

(** An exception raised by a line ends the run: whatever follows, and
    nothing is printed. *)
Lemma parse_logs_abort pre line post st e :
  ingest_all initial pre = OK st →
  ingest st line = Raise e →
  parse_logs (pre ++ line :: post) = Raise e.
Proof.
  intros Hpre Hline. unfold parse_logs.
  rewrite ingest_all_app, Hpre, bind_OK. simpl.
  rewrite Hline. reflexivity.
Qed.

Lemma startswith_msm_not_timed line :
  Py.startswith line "msm" = true → Py.startswith line "[T" = false.
Proof.
  destruct line as [|c s]; cbn [Py.startswith]; [discriminate|].
  destruct (Ascii.eqb_spec "m" c) as [<-|]; [reflexivity | discriminate].
Qed.

Lemma startswith_fft_not_timed line :
  Py.startswith line "fft" = true → Py.startswith line "[T" = false.
Proof.
  destruct line as [|c s]; cbn [Py.startswith]; [discriminate|].
  destruct (Ascii.eqb_spec "f" c) as [<-|]; [reflexivity | discriminate].
Qed.

Lemma is_op_branch line :
  is_op line = true →
  Py.startswith line "[T" = false ∧
  Py.startswith line "msm" || Py.startswith line "fft" = true.
Proof.
  unfold is_op. intros [H1 H2]%andb_true_iff.
  apply negb_true_iff in H1. auto.
Qed.

Lemma op_prefix_is_op line :
  Py.startswith line "msm" = true ∨ Py.startswith line "fft" = true →
  is_op line = true.
Proof.
  unfold is_op. intros [H|H].
  - rewrite (startswith_msm_not_timed _ H), H. reflexivity.
  - rewrite (startswith_fft_not_timed _ H), H, orb_true_r. reflexivity.
Qed.

(** * Operation-count lines *)

(** C10. A line that starts with [msm] or [fft] and does not split on
    whitespace into exactly two tokens makes the unpacking
    [operation, size = line.split()] raise [ValueError], in every state;
    the exception is not caught, so the run ends with it instead of
    going on to the next line. *)
Theorem op_line_wrong_arity_raises line :
  Py.startswith line "msm" = true ∨ Py.startswith line "fft" = true →
  length (Py.split_ws line) ≠ 2%nat →
  (∀ st, ingest st line = Raise ValueError) ∧
  (∀ pre post st, ingest_all initial pre = OK st →
     parse_logs (pre ++ line :: post) = Raise ValueError).
Proof.
  intros Hop Hlen.
  assert (Hraise : ∀ st, ingest st line = Raise ValueError).
  { intros st. apply op_prefix_is_op, is_op_branch in Hop as [Ht Hp].
    unfold ingest. rewrite Ht, Hp.
    destruct (Py.split_ws line) as [|a [|b [|c q]]]; simpl in Hlen;
      try reflexivity. congruence. }
  split; [exact Hraise|].
  intros pre post st Hpre. eapply parse_logs_abort; eauto.
Qed.

Lemma op_line_wrong_arity_raises_witness :
  ingest (State [new_task "a" 1] []) "msm 10 20" = Raise ValueError ∧
  parse_logs ["[T 1] Start a" +:+ nl; "msm" +:+ nl; "[T 2] Done" +:+ nl]
    = Raise ValueError.
Proof.
  split.
  - apply (op_line_wrong_arity_raises "msm 10 20"); [left; reflexivity | vm_compute; lia].
  - apply (proj2 (op_line_wrong_arity_raises ("msm" +:+ nl)
                    ltac:(left; reflexivity) ltac:(vm_compute; lia))
             ["[T 1] Start a" +:+ nl] ["[T 2] Done" +:+ nl] (State [new_task "a" 1] [])).
    vm_compute. reflexivity.
Defined.

Lemma counter_key_op_name k : counter_key (op_name k) = Some k.
Proof. destruct k; reflexivity. Qed.

Lemma count_one_same size (d : gmap string nat) :
  count_one size d !! size = Some (match d !! size with Some n => S n | None => 1%nat end).
Proof.
  unfold count_one. destruct (d !! size) as [n|]; apply lookup_insert_eq.
Qed.

Lemma count_one_other size size' (d : gmap string nat) :
  size' ≠ size → count_one size d !! size' = d !! size'.
Proof.
  intros Hne. unfold count_one.
  destruct (d !! size) as [n|]; apply lookup_insert_ne; congruence.
Qed.

(** C5. An operation-count event ([msm] or [fft] followed by a size label)
    seen while tasks are open replaces the innermost open task by a task
    that differs from it in one counter only: the count of that size label
    for that operation kind is one more than before, or 1 if the label was
    absent. The name and times of that task, its other labels, its
    counters of the other kind, the other open tasks, the depth of the
    stack and the closed tasks stay as they were. With no task open the
    event leaves the state as it is. *)
Theorem op_event_touches_only_innermost st line k size :
  is_op line = true →
  Py.split_ws line = [op_name k; size] →
  (∀ rest top, active_tasks st = rest ++ [top] →
     ∃ top',
       ingest st line = OK (State (rest ++ [top']) (all_tasks st)) ∧
       task_name top' = task_name top ∧
       start_time top' = start_time top ∧
       end_time top' = end_time top ∧
       duration top' = duration top ∧
       counters k top' !! size =
         Some (match counters k top !! size with Some n => S n | None => 1%nat end) ∧
       (∀ size', size' ≠ size → counters k top' !! size' = counters k top !! size') ∧
       (∀ k', k' ≠ k → counters k' top' = counters k' top)) ∧
  (active_tasks st = [] → ingest st line = OK st).
Proof.
  intros [Ht Hp]%is_op_branch Hsplit.
  unfold ingest. rewrite Ht, Hp, Hsplit. split.
  - intros rest top Hact. rewrite Hact, pop_snoc, counter_key_op_name.
    eexists. split; [reflexivity|].
    destruct k; cbn [set_counters counters task_name start_time end_time duration msm fft];
      (repeat split; [apply count_one_same | intros; by apply count_one_other
                     | intros [] Hk; [reflexivity || congruence ..]]).
  - intros Hact. rewrite Hact. cbn [pop].
    destruct st as [a c]. simpl in Hact. subst a. reflexivity.
Qed.

Lemma op_event_touches_only_innermost_witness :
  let A := new_task "A" 1 in
  let B := new_task "B" 2 in
  let line := "msm 10" +:+ nl in
  (∃ B', ingest (State [A; B] []) line = OK (State [A; B'] []) ∧
         counters Msm B' !! "10" = Some 1%nat ∧ counters Fft B' = counters Fft B) ∧
  ingest initial line = OK initial.
Proof.
  intros A B line.
  pose proof (op_event_touches_only_innermost (State [A; B] []) line Msm "10"
                eq_refl eq_refl) as [Hpush _].
  pose proof (op_event_touches_only_innermost initial line Msm "10"
                eq_refl eq_refl) as [_ Hempty].
  split; [|apply Hempty; reflexivity].
  destruct (Hpush [A] B eq_refl) as (B' & Hing & _ & _ & _ & _ & Hcnt & _ & Hother).
  exists B'. split; [exact Hing|]. split; [exact Hcnt|].
  apply Hother. discriminate.
Defined.

(** * Completion lines *)

(** C4. A completion line (it starts with [[T], has no [Start] and has
    [Done] in it) ingested while no task is open is never skipped: the
    iteration raises. Once the timestamp of the line is read the exception
    is the [IndexError] of [active_tasks[-1]] on the empty list, and the
    run ends with it. *)
Theorem done_with_no_open_task_raises st line :
  Py.startswith line "[T" = true →
  Py.contains "Start" line = false →
  Py.contains "Done" line = true →
  active_tasks st = [] →
  (∃ e, ingest st line = Raise e) ∧
  (∀ t, timestamp line = OK t →
     ingest st line = Raise IndexError ∧
     (∀ pre post, ingest_all initial pre = OK st →
        parse_logs (pre ++ line :: post) = Raise IndexError)).
Proof.
  intros Ht Hs Hd Hact.
  assert (Hraise : ∀ t, timestamp line = OK t → ingest st line = Raise IndexError).
  { intros t Hts. unfold ingest. rewrite Ht, Hts, bind_OK, Hs, Hd, Hact. reflexivity. }
  split.
  - destruct (timestamp line) as [t|e] eqn:Hts; [eauto|].
    exists e. unfold ingest. rewrite Ht, Hts. reflexivity.
  - intros t Hts. split; [eauto|].
    intros pre post Hpre. eapply parse_logs_abort; eauto.
Qed.

Lemma done_with_no_open_task_raises_witness :
  ingest initial ("[T 8] Done inner" +:+ nl) = Raise IndexError ∧
  parse_logs ["[T 3] Start a" +:+ nl; "[T 5] Done a" +:+ nl; "[T 8] Done inner" +:+ nl]
    = Raise IndexError.
Proof.
  pose proof (done_with_no_open_task_raises initial ("[T 8] Done inner" +:+ nl)
                eq_refl eq_refl eq_refl eq_refl) as [_ H].
  destruct (H 8 eq_refl) as [H1 _].
  pose proof (done_with_no_open_task_raises (State [] [Task "a" 3 5 2 ∅ ∅])
                ("[T 8] Done inner" +:+ nl)
                eq_refl eq_refl eq_refl eq_refl) as [_ H'].
  destruct (H' 8 eq_refl) as [_ H2].
  split; [exact H1|].
  apply (H2 ["[T 3] Start a" +:+ nl; "[T 5] Done a" +:+ nl] []).
  vm_compute. reflexivity.
Defined.

(** A start line whose task name has [Done] in it starts with [[T] and
    contains [Done], yet it opens a task and closes none: the test for
    [Start] comes first. *)
Lemma done_in_start_line_counterexample :
  let st := State [new_task "a" 1] [] in
  let line := "[T 7] Start Done-check" +:+ nl in
  Py.startswith line "[T" = true ∧
  Py.contains "Done" line = true ∧
  active_tasks st ≠ [] ∧
  ingest st line = OK (State [new_task "a" 1; new_task "Done-check" 7] []) ∧
  ¬ closes_innermost st line.
Proof.
  intros st line.
  assert (Hing : ingest st line = OK (State [new_task "a" 1; new_task "Done-check" 7] []))
    by (vm_compute; reflexivity).
  split; [reflexivity|]. split; [reflexivity|].
  split; [discriminate|]. split; [exact Hing|].
  intros (rest & top & t & _ & Hclose).
  rewrite Hing in Hclose. simpl in Hclose. discriminate.
Qed.

(** C3 (amended). A line that starts with [[T], does not contain [Start],
    contains [Done] and whose timestamp reads as [t], ingested while a task
    is open, pops the innermost open task and appends it to the closed
    tasks with [end_time = t] and [duration = t - start_time]; the other
    open tasks and the tasks closed before stay as they were. *)
Theorem done_line_closes_innermost st line t rest top :
  Py.startswith line "[T" = true →
  Py.contains "Start" line = false →
  Py.contains "Done" line = true →
  timestamp line = OK t →
  active_tasks st = rest ++ [top] →
  ingest st line =
    OK (State rest
          (all_tasks st ++
             [Task (task_name top) (start_time top) t (t - start_time top)
                   (msm top) (fft top)])).
Proof.
  intros Ht Hs Hd Hts Hact.
  unfold ingest. rewrite Ht, Hts, bind_OK, Hs, Hd, Hact, pop_snoc. reflexivity.
Qed.

Lemma done_line_closes_innermost_witness :
  ingest (State [new_task "outer" 0; new_task "inner" 5] []) ("[T 8] Done inner" +:+ nl)
  = OK (State [new_task "outer" 0] [Task "inner" 5 8 3 ∅ ∅]).
Proof.
  apply (done_line_closes_innermost
           (State [new_task "outer" 0; new_task "inner" 5] [])
           ("[T 8] Done inner" +:+ nl) 8 [new_task "outer" 0] (new_task "inner" 5));
    reflexivity.
Defined.

(** * The shape of one iteration *)

(** What a line that raises nothing did to the state: it pushed a fresh
    task, or closed the innermost one, or left both lists as they were up
    to one count on the innermost open task. *)
Lemma ingest_cases st line st' :
  ingest st line = OK st' →
  (is_start line = true ∧
   ∃ t name, timestamp line = OK t ∧ start_name line = OK name ∧
     st' = State (active_tasks st ++ [new_task name t]) (all_tasks st)) ∨
  (is_done line = true ∧
   ∃ t rest top, timestamp line = OK t ∧ active_tasks st = rest ++ [top] ∧
     st' = State rest (all_tasks st ++ [close_task t top])) ∨
  (is_start line = false ∧ is_done line = false ∧
   all_tasks st' = all_tasks st ∧
   (active_tasks st' = active_tasks st ∨
    ∃ rest top k size, active_tasks st = rest ++ [top] ∧
      active_tasks st' = rest ++ [set_counters k (count_one size (counters k top)) top])).
Proof.
  unfold ingest, is_start, is_done.
  destruct (Py.startswith line "[T") eqn:Ht.
  - destruct (timestamp line) as [t|e] eqn:Hts; [rewrite bind_OK | discriminate].
    destruct (Py.contains "Start" line) eqn:Hs.
    + destruct (start_name line) as [name|e] eqn:Hn; [rewrite bind_OK | discriminate].
      intros [= <-]. left. eauto 10.
    + destruct (Py.contains "Done" line) eqn:Hd.
      * destruct (pop (active_tasks st)) as [[rest top]|] eqn:Hp; [|discriminate].
        intros [= <-]. right; left. apply pop_Some in Hp. eauto 10.
      * intros [= <-]. right; right. auto.
  - destruct (Py.startswith line "msm" || Py.startswith line "fft").
    + destruct (Py.split_ws line) as [|operation [|size [|? ?]]]; try discriminate.
      destruct (pop (active_tasks st)) as [[rest top]|] eqn:Hp.
      * destruct (counter_key operation) as [k|]; [|discriminate].
        intros [= <-]. right; right. apply pop_Some in Hp.
        repeat split; try reflexivity. right. eauto 10.
      * intros [= <-]. right; right. auto.
    + intros [= <-]. right; right. auto.
Qed.

Lemma start_not_done line : is_start line = true → is_done line = false.
Proof.
  unfold is_start, is_done.
  destruct (Py.startswith line "[T"), (Py.contains "Start" line); simpl; congruence.
Qed.

(** The same, counted: the depth of the stack and the number of closed
    tasks after the line. *)
Lemma ingest_lengths st line st' :
  ingest st line = OK st' →
  if is_start line then
    length (active_tasks st') = S (length (active_tasks st)) ∧
    length (all_tasks st') = length (all_tasks st)
  else if is_done line then
    length (active_tasks st) = S (length (active_tasks st')) ∧
    length (all_tasks st') = S (length (all_tasks st))
  else
    length (active_tasks st') = length (active_tasks st) ∧
    length (all_tasks st') = length (all_tasks st).
Proof.
  intros H. apply ingest_cases in H
    as [(Hs & t & name & _ & _ & ->) | [(Hd & t & rest & top & _ & Ha & ->) | (Hs & Hd & Hall & Hact)]].
  - rewrite Hs. simpl. rewrite length_app. simpl. lia.
  - assert (Hs : is_start line = false).
    { destruct (is_start line) eqn:Hs; [|reflexivity].
      apply start_not_done in Hs. congruence. }
    rewrite Hs, Hd, Ha. simpl. rewrite !length_app. simpl. lia.
  - rewrite Hs, Hd, Hall. split; [|reflexivity].
    destruct Hact as [-> | (rest & top & k & size & -> & ->)]; [reflexivity|].
    rewrite !length_app. reflexivity.
Qed.

(** A readable line raises only if it is a completion line met with no
    task open. *)
Lemma ingest_readable st line :
  readable line = true →
  (is_done line = true → active_tasks st ≠ []) →
  ∃ st', ingest st line = OK st'.
Proof.
  unfold readable, ingest, is_done.
  destruct (Py.startswith line "[T").
  - destruct (timestamp line) as [t|e]; [rewrite bind_OK | discriminate].
    destruct (Py.contains "Start" line).
    + destruct (start_name line) as [name|e]; [rewrite bind_OK; eauto | discriminate].
    + destruct (Py.contains "Done" line); [|eauto].
      intros _ Hne. destruct (pop (active_tasks st)) as [[rest top]|] eqn:Hp; [eauto|].
      apply pop_None in Hp. destruct Hne; auto.
  - destruct (Py.startswith line "msm" || Py.startswith line "fft"); [|eauto].
    destruct (Py.split_ws line) as [|operation [|size [|? ?]]]; try discriminate.
    destruct (pop (active_tasks st)) as [[rest top]|]; [|eauto].
    destruct (counter_key operation); [eauto | discriminate].
Qed.

(** * Balanced logs *)

Lemma nesting_run lines : ∀ st st' d,
  ingest_all st lines = OK st' →
  nesting (length (active_tasks st)) lines = Some d →
  length (active_tasks st') = d ∧
  length (all_tasks st') = (length (all_tasks st) + count is_done lines)%nat ∧
  (count is_start lines + length (active_tasks st) = count is_done lines + d)%nat.
Proof.
  induction lines as [|line lines IH]; intros st st' d; simpl.
  - intros [= <-] [= <-]. lia.
  - intros (st1 & H1 & Hrest)%bind_OK_inv.
    apply ingest_lengths in H1.
    destruct (is_start line) eqn:Hs.
    + destruct H1 as [Ha Hc]. rewrite <- Ha. intros Hn.
      destruct (IH _ _ _ Hrest Hn) as (? & ? & ?).
      rewrite (start_not_done _ Hs). lia.
    + destruct (is_done line).
      * destruct H1 as [Ha Hc]. rewrite Ha. intros Hn.
        destruct (IH _ _ _ Hrest Hn) as (? & ? & ?). lia.
      * destruct H1 as [Ha Hc]. rewrite <- Ha. intros Hn.
        destruct (IH _ _ _ Hrest Hn) as (? & ? & ?). lia.
Qed.

Lemma nesting_readable_run lines : ∀ st d,
  forallb readable lines = true →
  nesting (length (active_tasks st)) lines = Some d →
  ∃ st', ingest_all st lines = OK st'.
Proof.
  induction lines as [|line lines IH]; intros st d; simpl; [eauto|].
  intros [Hr Hrs]%andb_true_iff Hn.
  destruct (ingest_readable st line Hr) as [st1 H1].
  { intros Hd Hact. rewrite Hact in Hn. simpl in Hn.
    destruct (is_start line) eqn:Hs.
    - apply start_not_done in Hs. congruence.
    - rewrite Hd in Hn. discriminate. }
  rewrite H1, bind_OK.
  apply ingest_lengths in H1. apply (IH st1 d Hrs).
  destruct (is_start line).
  - destruct H1 as [-> _]. exact Hn.
  - destruct (is_done line).
    + destruct H1 as [Ha _]. rewrite Ha in Hn. exact Hn.
    + destruct H1 as [-> _]. exact Hn.
Qed.

(** C8. In a log where every start line has its completion line (the
    nesting depth never goes below zero and is back at zero at the end),
    once all lines are ingested the number of start lines equals the
    number of completion lines equals the number of closed tasks, and no
    task is left open. Such a log is ingested to the end whenever each of
    its lines is readable. *)
Theorem balanced_log_counts lines :
  well_nested lines →
  (∀ st, ingest_all initial lines = OK st →
     active_tasks st = [] ∧
     count is_start lines = count is_done lines ∧
     count is_done lines = length (all_tasks st)) ∧
  (forallb readable lines = true → ∃ st, ingest_all initial lines = OK st).
Proof.
  unfold well_nested. intros Hn. split.
  - intros st Hrun.
    destruct (nesting_run lines initial st 0%nat Hrun Hn) as (Ha & Hc & Hs).
    simpl in Hc, Hs. split; [|lia].
    destruct (active_tasks st); [reflexivity | discriminate].
  - intros Hr. exact (nesting_readable_run lines initial 0%nat Hr Hn).
Qed.

Lemma balanced_log_counts_witness :
  let lines :=
    [ "[T 0] Start outer" +:+ nl; "[T 5] Start inner" +:+ nl; "msm 10" +:+ nl;
      "[T 8] Done inner" +:+ nl; "fft 20" +:+ nl; "[T 20] Done outer" +:+ nl ] in
  ∃ st, ingest_all initial lines = OK st ∧
        active_tasks st = [] ∧
        count is_start lines = 2%nat ∧ count is_done lines = 2%nat ∧
        length (all_tasks st) = 2%nat.
Proof.
  intros lines.
  destruct (balanced_log_counts lines eq_refl) as [Hcounts Hruns].
  destruct (Hruns eq_refl) as [st Hst].
  destruct (Hcounts st Hst) as (Ha & Hsd & Hdc).
  exists st. split; [exact Hst|]. split; [exact Ha|].
  split; [reflexivity|]. split; [reflexivity|].
  rewrite <- Hdc. reflexivity.
Defined.


(** * The stable sort *)

Section Sorted.
Context {A : Type} (key : A → Z).

Lemma insert_by_perm x l : Permutation (x :: l) (insert_by key x l).
Proof.
  induction l as [|y l IH]; simpl; [reflexivity|].
  destruct (key x <=? key y); [reflexivity|].
  rewrite perm_swap. apply perm_skip, IH.
Qed.

Lemma sorted_perm l : Permutation l (sorted key l).
Proof.
  induction l as [|x l IH]; simpl; [reflexivity|].
  rewrite <- insert_by_perm. apply perm_skip, IH.
Qed.

Lemma insert_by_ascending x l : ascending key l → ascending key (insert_by key x l).
Proof.
  unfold ascending. induction l as [|y l IH]; simpl; intros Hl.
  - repeat constructor.
  - apply StronglySorted_inv in Hl as [Hl Hy].
    destruct (Z.leb_spec (key x) (key y)) as [Hle|Hgt].
    + constructor; [constructor; assumption|].
      constructor; [assumption|].
      eapply Forall_impl; [exact Hy|]. simpl. intros; lia.
    + constructor; [auto|].
      eapply Permutation_Forall; [apply insert_by_perm|].
      constructor; [lia | assumption].
Qed.

Lemma sorted_ascending l : ascending key (sorted key l).
Proof.
  induction l as [|x l IH]; simpl; [constructor|].
  apply insert_by_ascending, IH.
Qed.

(** Stability: the elements of one key keep the order they had. *)
Lemma insert_by_stable k x l :
  List.filter (fun a => key a =? k) (insert_by key x l) =
  List.filter (fun a => key a =? k) (x :: l).
Proof.
  induction l as [|y l IH]; [reflexivity|].
  cbn [insert_by]. destruct (Z.leb_spec (key x) (key y)) as [Hle|Hgt]; [reflexivity|].
  cbn [List.filter] in *. rewrite IH.
  destruct (Z.eqb_spec (key x) k), (Z.eqb_spec (key y) k); try reflexivity. lia.
Qed.

Lemma sorted_stable k l :
  List.filter (fun a => key a =? k) (sorted key l) =
  List.filter (fun a => key a =? k) l.
Proof.
  induction l as [|x l IH]; [reflexivity|].
  cbn [sorted]. rewrite insert_by_stable. cbn [List.filter]. rewrite IH. reflexivity.
Qed.

(** Two ascending lists that hold, for every key, the same elements in
    the same order are one list: the stable sort of a list is unique, so
    any stable sort computes [sorted]. *)
Lemma stable_sort_unique l1 : ∀ l2,
  ascending key l1 → ascending key l2 →
  (∀ k, List.filter (fun a => key a =? k) l1 = List.filter (fun a => key a =? k) l2) →
  l1 = l2.
Proof.
  induction l1 as [|x t1 IH]; intros [|y t2] H1 H2 Hf; [reflexivity | | |].
  - specialize (Hf (key y)). simpl in Hf. rewrite Z.eqb_refl in Hf. discriminate.
  - specialize (Hf (key x)). simpl in Hf. rewrite Z.eqb_refl in Hf. discriminate.
  - apply StronglySorted_inv in H1 as [H1 Hx], H2 as [H2 Hy].
    rewrite List.Forall_forall in Hx, Hy.
    assert (Hxy : key x <= key y).
    { assert (Hin : In y (x :: t1)).
      { eapply proj1, filter_In. rewrite (Hf (key y)). simpl.
        rewrite Z.eqb_refl. left; reflexivity. }
      destruct Hin as [->|Hin]; [lia | exact (Hx y Hin)]. }
    assert (Hyx : key y <= key x).
    { assert (Hin : In x (y :: t2)).
      { eapply proj1, filter_In. rewrite <- (Hf (key x)). simpl.
        rewrite Z.eqb_refl. left; reflexivity. }
      destruct Hin as [->|Hin]; [lia | exact (Hy x Hin)]. }
    assert (Hk : key y = key x) by lia.
    pose proof (Hf (key x)) as Hhead. simpl in Hhead.
    rewrite Hk, Z.eqb_refl in Hhead. injection Hhead as -> Htail.
    f_equal. apply IH; [exact H1 | exact H2 |].
    intros k. destruct (Z.eq_dec k (key y)) as [->|Hne]; [exact Htail|].
    specialize (Hf k). simpl in Hf.
    destruct (Z.eqb_spec (key y) k); [congruence | exact Hf].
Qed.

Lemma sorted_is_the_stable_sort (f : list A → list A) l :
  ascending key (f l) →
  (∀ k, List.filter (fun a => key a =? k) (f l) = List.filter (fun a => key a =? k) l) →
  f l = sorted key l.
Proof.
  intros Hasc Hstable. apply stable_sort_unique; [exact Hasc | apply sorted_ascending |].
  intros k. rewrite Hstable, sorted_stable. reflexivity.
Qed.
End Sorted.

(** * The slowest instance *)

Lemma first_named_insert_by key name x l :
  ascending key l →
  first_named name (insert_by key x l) =
    if String.eqb (task_name x) name then
      match first_named name l with
      | Some best => if key x <=? key best then Some x else Some best
      | None => Some x
      end
    else first_named name l.
Proof.
  unfold ascending. induction l as [|y l IH]; intros Hl.
  - simpl. destruct (String.eqb (task_name x) name); reflexivity.
  - apply StronglySorted_inv in Hl as [Hl Hy].
    cbn [insert_by]. destruct (Z.leb_spec (key x) (key y)) as [Hle|Hgt].
    + cbn [first_named]. destruct (String.eqb (task_name x) name); [|reflexivity].
      destruct (String.eqb (task_name y) name).
      * destruct (Z.leb_spec (key x) (key y)); [reflexivity | lia].
      * destruct (first_named name l) as [best|] eqn:Hbest; [|reflexivity].
        assert (Hin : In best l).
        { clear -Hbest. induction l as [|z l IHl]; [discriminate|].
          simpl in Hbest. destruct (String.eqb (task_name z) name).
          - injection Hbest as ->. left; reflexivity.
          - right. auto. }
        rewrite List.Forall_forall in Hy. specialize (Hy best Hin). simpl in Hy.
        destruct (Z.leb_spec (key x) (key best)); [reflexivity | lia].
    + cbn [first_named]. destruct (String.eqb (task_name y) name).
      * destruct (String.eqb (task_name x) name); [|reflexivity].
        destruct (Z.leb_spec (key x) (key y)); [lia | reflexivity].
      * apply IH, Hl.
Qed.

(** Sorting and taking the first match is the one-pass scan. *)
Lemma slowest_scan name l : slowest name l = scan_slowest name l.
Proof.
  unfold slowest. induction l as [|t l IH]; [reflexivity|].
  cbn [sorted scan_slowest].
  rewrite first_named_insert_by by apply sorted_ascending.
  rewrite IH. destruct (String.eqb (task_name t) name); [|reflexivity].
  destruct (scan_slowest name l) as [best|]; [|reflexivity].
  destruct (Z.leb_spec (duration t * -1) (duration best * -1)),
           (Z.leb_spec (duration best) (duration t)); (reflexivity || lia).
Qed.

Lemma scan_slowest_In name l best :
  scan_slowest name l = Some best → In best l ∧ task_name best = name.
Proof.
  revert best. induction l as [|t l IH]; intros best; simpl; [discriminate|].
  destruct (String.eqb_spec (task_name t) name) as [Hn|Hn].
  - destruct (scan_slowest name l) as [b|].
    + destruct (duration b <=? duration t); intros [= <-]; [auto|].
      destruct (IH b eq_refl). auto.
    + intros [= <-]. auto.
  - intros H. destruct (IH best H). auto.
Qed.

(** The task found is the first of that name that no other of that name
    outlasts. *)
Lemma slowest_first_longest name l1 a l2 :
  task_name a = name →
  (∀ x, In x l1 → task_name x = name → duration x < duration a) →
  (∀ x, In x l2 → task_name x = name → duration x <= duration a) →
  slowest name (l1 ++ a :: l2) = Some a.
Proof.
  intros Ha Hbefore Hafter. rewrite slowest_scan.
  induction l1 as [|y l1 IH]; simpl.
  - rewrite <- Ha, String.eqb_refl.
    destruct (scan_slowest (task_name a) l2) as [b|] eqn:Hb; [|reflexivity].
    rewrite Ha in Hb. apply scan_slowest_In in Hb as [Hin Hname].
    specialize (Hafter b Hin Hname).
    destruct (Z.leb_spec (duration b) (duration a)); [reflexivity | lia].
  - rewrite IH by (intros; apply Hbefore; simpl; auto).
    destruct (String.eqb_spec (task_name y) name) as [Hy|Hy]; [|reflexivity].
    specialize (Hbefore y (or_introl eq_refl) Hy).
    destruct (Z.leb_spec (duration a) (duration y)); [lia | reflexivity].
Qed.

(** Three closed tasks of one name, as a log produces them: the first two
    lasted equally long, the third longer. The selection returns the
    third, not the earlier of the two equal ones. *)
Lemma tie_below_maximum_counterexample :
  let a := Task "work" 0 10 10 ∅ ∅ in
  let b := Task "work" 20 30 10 ∅ ∅ in
  let c := Task "work" 40 60 20 ∅ ∅ in
  ingest_all initial
    [ "[T 0] Start work" +:+ nl; "[T 10] Done work" +:+ nl;
      "[T 20] Start work" +:+ nl; "[T 30] Done work" +:+ nl;
      "[T 40] Start work" +:+ nl; "[T 60] Done work" +:+ nl ]
    = OK (State [] [a; b; c]) ∧
  task_name a = "work" ∧ task_name b = "work" ∧ duration a = duration b ∧
  slowest "work" [a; b; c] = Some c ∧
  slowest "work" [a; b; c] ≠ Some a.
Proof.
  intros a b c.
  split; [vm_compute; reflexivity|].
  split; [reflexivity|]. split; [reflexivity|]. split; [reflexivity|].
  split; [vm_compute; reflexivity|].
  vm_compute. discriminate.
Qed.

(** C2 (amended). Given two closed tasks of the queried name with the same
    duration, such that no closed task of that name lasted longer and none
    of those completed before the first of the two lasted as long, the
    selection (stable sort by descending duration, then first task of that
    name) returns the one of the two that completed earlier. *)
Theorem slowest_tie_returns_earlier name l1 a l2 b l3 :
  task_name a = name →
  task_name b = name →
  duration a = duration b →
  (∀ x, In x (l1 ++ l2 ++ l3) → task_name x = name → duration x <= duration a) →
  (∀ x, In x l1 → task_name x = name → duration x ≠ duration a) →
  slowest name (l1 ++ a :: l2 ++ b :: l3) = Some a.
Proof.
  intros Ha Hb Hab Hmax Hfirst.
  apply slowest_first_longest; [exact Ha | |].
  - intros x Hx Hn.
    assert (duration x <= duration a) by (apply Hmax; [rewrite in_app_iff; auto | exact Hn]).
    specialize (Hfirst x Hx Hn). lia.
  - intros x Hx Hn. apply in_app_iff in Hx as [Hx | [<- | Hx]].
    + apply Hmax; [rewrite !in_app_iff; auto | exact Hn].
    + lia.
    + apply Hmax; [rewrite !in_app_iff; auto | exact Hn].
Qed.

Lemma slowest_tie_returns_earlier_witness :
  slowest "work"
    [ Task "load" 0 50 50 ∅ ∅; Task "work" 50 58 8 ∅ ∅; Task "work" 60 70 10 ∅ ∅;
      Task "idle" 70 71 1 ∅ ∅; Task "work" 80 90 10 ∅ ∅; Task "work" 90 95 5 ∅ ∅ ]
  = Some (Task "work" 60 70 10 ∅ ∅).
Proof.
  apply (slowest_tie_returns_earlier "work"
           [Task "load" 0 50 50 ∅ ∅; Task "work" 50 58 8 ∅ ∅]
           (Task "work" 60 70 10 ∅ ∅)
           [Task "idle" 70 71 1 ∅ ∅]
           (Task "work" 80 90 10 ∅ ∅)
           [Task "work" 90 95 5 ∅ ∅]); try reflexivity.
  - intros x Hx Hn. simpl in Hx.
    destruct Hx as [<-|[<-|[<-|[<-|[]]]]]; simpl in *; (discriminate || lia).
  - intros x Hx Hn. simpl in Hx.
    destruct Hx as [<-|[<-|[]]]; simpl in *; (discriminate || lia).
Defined.


(** * Splitting at a separator *)

Section Split.
Variable sep : string.
Hypothesis sep_nonempty : sep ≠ EmptyString.

Lemma slice_from_length n s :
  String.length (Py.slice_from n s) = (String.length s - n)%nat.
Proof.
  revert s. induction n as [|n IH]; intros [|c s]; simpl; auto.
Qed.

Lemma startswith_length s p :
  Py.startswith s p = true → (String.length p <= String.length s)%nat.
Proof.
  revert s. induction p as [|a p IH]; intros [|b s]; simpl; try (discriminate || lia).
  destruct (Ascii.eqb a b); [|discriminate].
  intros H%IH. lia.
Qed.

Lemma partition_shorter s before after :
  Py.partition sep s = Some (before, after) →
  (String.length after < String.length s)%nat.
Proof.
  revert before. induction s as [|c s IH]; intros before.
  - destruct sep; [congruence | discriminate].
  - cbn [Py.partition].
    destruct (Py.startswith (String c s) sep) eqn:Hp.
    + intros [= <- <-]. rewrite slice_from_length.
      apply startswith_length in Hp.
      destruct sep; [congruence|]. simpl in *. lia.
    + destruct (Py.partition sep s) as [[b a]|]; [|discriminate].
      intros [= <- <-]. specialize (IH b eq_refl). simpl. lia.
Qed.

Lemma split_fuel_enough n : ∀ m s,
  (String.length s < n)%nat → (String.length s < m)%nat →
  Py.split_fuel n sep s = Py.split_fuel m sep s.
Proof.
  induction n as [|n IH]; intros [|m] s Hn Hm; try lia.
  simpl. destruct (Py.partition sep s) as [[b a]|] eqn:Hp; [|reflexivity].
  apply partition_shorter in Hp. f_equal. apply IH; lia.
Qed.

(** The equation of [split]: cut at the first occurrence and go on. *)
Lemma split_unfold s :
  Py.split sep s =
    match Py.partition sep s with
    | None => [s]
    | Some (before, after) => before :: Py.split sep after
    end.
Proof.
  unfold Py.split at 1. cbn [Py.split_fuel].
  destruct (Py.partition sep s) as [[b a]|] eqn:Hp; [|reflexivity].
  apply partition_shorter in Hp. f_equal. apply split_fuel_enough; lia.
Qed.

(** [s.split(sep)[0]] *)
Lemma split_item_0 s :
  item (Py.split sep s) 0 =
    OK match Py.partition sep s with
       | Some (before, _) => before
       | None => s
       end.
Proof.
  rewrite split_unfold. destruct (Py.partition sep s) as [[b a]|]; reflexivity.
Qed.

(** [s.split(sep)[1]]: what stands between the first occurrence of the
    separator and the next one. *)
Lemma split_item_1 s :
  item (Py.split sep s) 1 =
    match Py.partition sep s with
    | Some (_, after) =>
        OK match Py.partition sep after with
           | Some (between, _) => between
           | None => after
           end
    | None => Raise IndexError
    end.
Proof.
  rewrite split_unfold. destruct (Py.partition sep s) as [[b a]|]; [|reflexivity].
  change (item (b :: Py.split sep a) 1) with (item (Py.split sep a) 0).
  apply split_item_0.
Qed.
End Split.

Lemma append_nil s : EmptyString +:+ s = s.
Proof. reflexivity. Qed.

Lemma append_cons a p s : String a p +:+ s = String a (p +:+ s).
Proof. reflexivity. Qed.

Lemma append_empty_r s : s +:+ EmptyString = s.
Proof.
  induction s as [|a s IH]; [reflexivity|].
  rewrite append_cons, IH. reflexivity.
Qed.

Lemma startswith_app s p : Py.startswith (p +:+ s) p = true.
Proof.
  induction p as [|a p IH]; [reflexivity|].
  rewrite append_cons. cbn [Py.startswith].
  rewrite Ascii.eqb_refl. exact IH.
Qed.

Lemma startswith_app_l s p q :
  Py.startswith s (p +:+ q) = true → Py.startswith s p = true.
Proof.
  revert s. induction p as [|a p IH]; intros s; [reflexivity|].
  rewrite append_cons. cbn [Py.startswith].
  destruct s as [|b s]; [discriminate|].
  destruct (Ascii.eqb a b); [apply IH | discriminate].
Qed.

Lemma startswith_split s p :
  Py.startswith s p = true → s = p +:+ Py.slice_from (String.length p) s.
Proof.
  revert s. induction p as [|a p IH]; intros s; [reflexivity|].
  cbn [Py.startswith String.length Py.slice_from].
  destruct s as [|b s]; [discriminate|].
  destruct (Ascii.eqb_spec a b) as [<-|]; [|discriminate].
  intros H. rewrite append_cons. f_equal. apply IH, H.
Qed.

(** The cut of [partition] is at an occurrence of the separator. *)
Lemma partition_app sep s before after :
  Py.partition sep s = Some (before, after) → s = before +:+ sep +:+ after.
Proof.
  revert before. induction s as [|c s IH]; intros before; cbn [Py.partition].
  - destruct (Py.startswith "" sep) eqn:Hp; [|discriminate].
    intros [= <- <-]. apply startswith_split in Hp. exact Hp.
  - destruct (Py.startswith (String c s) sep) eqn:Hp.
    + intros [= <- <-]. apply startswith_split in Hp. exact Hp.
    + destruct (Py.partition sep s) as [[b a]|]; [|discriminate].
      intros [= <- <-]. rewrite append_cons. f_equal. apply IH. reflexivity.
Qed.

Lemma contains_partition sub s :
  Py.contains sub s = true ↔ is_Some (Py.partition sub s).
Proof.
  induction s as [|c s IH]; cbn [Py.contains Py.partition].
  - destruct (Py.startswith "" sub); simpl; split; eauto;
      (discriminate || intros [? ?]; discriminate).
  - destruct (Py.startswith (String c s) sub); simpl; [split; eauto|].
    rewrite IH. destruct (Py.partition sub s) as [[b a]|]; split; eauto;
      intros [? ?]; discriminate.
Qed.

Lemma contains_app_l sub more s :
  Py.contains (sub +:+ more) s = true → Py.contains sub s = true.
Proof.
  induction s as [|c s IH]; cbn [Py.contains].
  - rewrite orb_false_r. intros H%startswith_app_l. rewrite H. reflexivity.
  - intros [H%startswith_app_l | H%IH]%orb_true_iff.
    + rewrite H. reflexivity.
    + rewrite H. apply orb_true_r.
Qed.

(** [timestamp] reads [stamp_text]. *)
Lemma timestamp_stamp_text line :
  timestamp line =
    match Py.int (stamp_text line) with
    | Some t => OK t
    | None => Raise ValueError
    end.
Proof.
  unfold timestamp, stamp_text.
  rewrite split_item_0 by discriminate. reflexivity.
Qed.

(** * Timestamps *)


(** The text between [[T] and []] of this start line is [x5], which is not
    an integer; the line is ingested all the same, with timestamp 5, and
    the run goes on to its end. *)
Lemma non_integer_after_marker_counterexample :
  let line := "[Tx5] Start a" +:+ nl in
  Py.startswith line "[T" = true ∧
  spec_stamp_text line = Some "x5" ∧
  Py.int "x5" = None ∧
  ingest initial line = OK (State [new_task "a" 5] []) ∧
  parse_logs [line] = OK None.
Proof.
  intros line. repeat split; vm_compute; reflexivity.
Qed.

(** C7 (amended). On a line that begins with [[T], when the text from
    index 3 (one character after the [T]) up to the first []] (up to the
    end of the line when there is none) is not an integer literal,
    ingestion raises [ValueError] in every state; nothing catches it, so
    the run ends with it and prints nothing. *)
Theorem malformed_timestamp_raises line :
  Py.startswith line "[T" = true →
  Py.int (stamp_text line) = None →
  (∀ st, ingest st line = Raise ValueError) ∧
  (∀ pre post st, ingest_all initial pre = OK st →
     parse_logs (pre ++ line :: post) = Raise ValueError).
Proof.
  intros Ht Hint.
  assert (Hraise : ∀ st, ingest st line = Raise ValueError).
  { intros st. unfold ingest. rewrite Ht, timestamp_stamp_text, Hint. reflexivity. }
  split; [exact Hraise|].
  intros pre post st Hpre. eapply parse_logs_abort; eauto.
Qed.

Lemma malformed_timestamp_raises_witness :
  ingest initial ("[T xyz] Start a" +:+ nl) = Raise ValueError ∧
  parse_logs ["[T 1] Start a" +:+ nl; "[T5] Done a" +:+ nl; "[T 9] Done a" +:+ nl]
    = Raise ValueError.
Proof.
  split.
  - apply (malformed_timestamp_raises ("[T xyz] Start a" +:+ nl)); reflexivity.
  - apply (proj2 (malformed_timestamp_raises ("[T5] Done a" +:+ nl) eq_refl eq_refl)
             ["[T 1] Start a" +:+ nl] ["[T 9] Done a" +:+ nl]
             (State [new_task "a" 1] [])).
    vm_compute. reflexivity.
Defined.

(** * Where closed tasks come from *)

Lemma opened_by_app lines more t i :
  opened_by lines t i → opened_by (lines ++ more) t i.
Proof.
  intros (line & Hi & H). exists line. split; [|exact H].
  rewrite lookup_app_l; [exact Hi|]. eapply lookup_lt_Some, Hi.
Qed.

Lemma closed_by_app lines more t j :
  closed_by lines t j → closed_by (lines ++ more) t j.
Proof.
  intros (line & Hj & H). exists line. split; [|exact H].
  rewrite lookup_app_l; [exact Hj|]. eapply lookup_lt_Some, Hj.
Qed.

Lemma opened_by_lt lines t i : opened_by lines t i → (i < length lines)%nat.
Proof. intros (line & Hi & _). eapply lookup_lt_Some, Hi. Qed.

(** A task keeps its name and start time when it is counted on. *)
Lemma opened_by_set_counters lines k d t i :
  opened_by lines t i → opened_by lines (set_counters k d t) i.
Proof. destruct k; exact id. Qed.

Lemma provenance_step lines st line st' :
  provenance lines st → ingest st line = OK st' → provenance (lines ++ [line]) st'.
Proof.
  intros [Hopen Hclosed] Hstep.
  assert (Hnew : (lines ++ [line]) !! length lines = Some line)
    by (apply list_lookup_middle; reflexivity).
  apply ingest_cases in Hstep
    as [(Hs & t & name & Hts & Hn & ->)
       | [(Hd & t & rest & top & Hts & Ha & ->) | (Hs & Hd & Hall & Hact)]].
  - split; cbn [active_tasks all_tasks].
    + intros x [Hx | [<- | []]]%in_app_iff.
      * destruct (Hopen x Hx) as [i Hi]. exists i. by apply opened_by_app.
      * exists (length lines), line. auto.
    + intros x Hx. destruct (Hclosed x Hx) as (Hdur & i & j & Hij & Hi & Hj).
      split; [exact Hdur|]. exists i, j.
      split; [exact Hij|]. split; [by apply opened_by_app | by apply closed_by_app].
  - split; cbn [active_tasks all_tasks].
    + intros x Hx. destruct (Hopen x) as [i Hi]; [rewrite Ha, in_app_iff; auto|].
      exists i. by apply opened_by_app.
    + intros x [Hx | [<- | []]]%in_app_iff.
      * destruct (Hclosed x Hx) as (Hdur & i & j & Hij & Hi & Hj).
        split; [exact Hdur|]. exists i, j.
        split; [exact Hij|]. split; [by apply opened_by_app | by apply closed_by_app].
      * split; [reflexivity|].
        destruct (Hopen top) as [i Hi]; [rewrite Ha, in_app_iff; simpl; auto|].
        exists i, (length lines). split; [by eapply opened_by_lt|].
        split; [apply opened_by_app; exact Hi|].
        exists line. auto.
  - split.
    + intros x Hx.
      destruct Hact as [Hact | (rest & top & k & size & Ha & Hact)].
      * rewrite Hact in Hx. destruct (Hopen x Hx) as [i Hi].
        exists i. by apply opened_by_app.
      * rewrite Hact in Hx. apply in_app_iff in Hx as [Hx | [<- | []]].
        -- destruct (Hopen x) as [i Hi]; [rewrite Ha, in_app_iff; auto|].
           exists i. by apply opened_by_app.
        -- destruct (Hopen top) as [i Hi]; [rewrite Ha, in_app_iff; simpl; auto|].
           exists i. by apply opened_by_app, opened_by_set_counters.
    + rewrite Hall. intros x Hx.
      destruct (Hclosed x Hx) as (Hdur & i & j & Hij & Hi & Hj).
      split; [exact Hdur|]. exists i, j.
      split; [exact Hij|]. split; [by apply opened_by_app | by apply closed_by_app].
Qed.

Lemma provenance_run lines st :
  ingest_all initial lines = OK st → provenance lines st.
Proof.
  revert st. induction lines as [|line lines IH] using rev_ind; intros st.
  - intros [= <-]. split; intros t [].
  - rewrite ingest_all_app. intros (st0 & Hpre & Hlast)%bind_OK_inv.
    simpl in Hlast. apply bind_OK_inv in Hlast as (st1 & Hstep & [= <-]).
    eapply provenance_step; eauto.
Qed.


(** ** Pairing start and completion lines *)

















(** * Task names *)

Lemma drop_last_snoc s c : Py.drop_last (s +:+ String c EmptyString) = s.
Proof.
  induction s as [|a s IH]; [reflexivity|].
  rewrite append_cons. cbn [Py.drop_last]. rewrite IH.
  destruct s; reflexivity.
Qed.

(** The task name has [Start ] in it: the name recorded is what stands
    before that second [Start ], less one character, and not the text
    after the first [Start ] less one character. *)
Lemma second_marker_counterexample :
  let line := "[T 1] Start Quick Start guide" +:+ nl in
  ingest initial line = OK (State [new_task "Quick" 1] []) ∧
  spec_start_name line = Some "Quick Start guide" ∧
  spec_start_name line ≠ Some "Quick".
Proof.
  intros line. split; [vm_compute; reflexivity|].
  split; [vm_compute; reflexivity|].
  vm_compute. discriminate.
Qed.

(** What a start line pushes, in general: the name is the second piece
    of the split at [Start ], less its last character. *)
Lemma start_line_pushes st line t before after :
  Py.startswith line "[T" = true →
  timestamp line = OK t →
  Py.partition "Start " line = Some (before, after) →
  let piece :=
    match Py.partition "Start " after with
    | Some (between, _) => between
    | None => after
    end in
  ingest st line =
    OK (State (active_tasks st ++ [new_task (Py.drop_last piece) t]) (all_tasks st)).
Proof.
  intros Ht Hts Hpart piece.
  assert (Hs : Py.contains "Start" line = true).
  { apply (contains_app_l "Start" " "). change ("Start" +:+ " ") with "Start ".
    apply contains_partition. rewrite Hpart. eauto. }
  unfold ingest, start_name.
  rewrite Ht, Hts, bind_OK, Hs, split_item_1, Hpart by discriminate.
  reflexivity.
Qed.

(** C9 (amended). On a start line (it begins with [[T] and its timestamp
    reads as [t]) in which [Start ] occurs once, the task pushed has for
    name the text after [Start ] with its last character removed, whatever
    that character is. So when the line ends with the character [c] after
    the text [name], line terminator or not, the recorded name is [name]:
    on a line with no terminator the name loses its own last character. *)
Theorem start_line_task_name st line t before after :
  Py.startswith line "[T" = true →
  timestamp line = OK t →
  Py.partition "Start " line = Some (before, after) →
  Py.partition "Start " after = None →
  ingest st line =
    OK (State (active_tasks st ++ [new_task (Py.drop_last after) t]) (all_tasks st)) ∧
  (∀ name c,
     after = name +:+ String c EmptyString →
     ingest st line =
       OK (State (active_tasks st ++ [new_task name t]) (all_tasks st))).
Proof.
  intros Ht Hts Hpart Honce.
  pose proof (start_line_pushes st line t before after Ht Hts Hpart) as Hpush.
  cbv zeta in Hpush. rewrite Honce in Hpush.
  split; [exact Hpush|].
  intros name c ->. rewrite drop_last_snoc in Hpush. exact Hpush.
Qed.

Lemma start_line_task_name_witness :
  ingest initial "[T 4] Start commit" = OK (State [new_task "commi" 4] []) ∧
  ingest initial ("[T 4] Start commit" +:+ nl) = OK (State [new_task "commit" 4] []).
Proof.
  split.
  - apply (proj2 (start_line_task_name initial "[T 4] Start commit" 4 "[T 4] " "commit"
                    eq_refl eq_refl eq_refl eq_refl) "commi" "t"%char).
    reflexivity.
  - apply (proj2 (start_line_task_name initial ("[T 4] Start commit" +:+ nl) 4
                    "[T 4] " ("commit" +:+ nl) eq_refl eq_refl eq_refl eq_refl)
             "commit" (ascii_of_nat 10)).
    reflexivity.
Defined.

(** * Lines that are passed over *)

Lemma string_of_list_ascii_app l1 l2 :
  string_of_list_ascii (l1 ++ l2) = string_of_list_ascii l1 +:+ string_of_list_ascii l2.
Proof.
  induction l1 as [|a l1 IH]; [reflexivity|].
  simpl. rewrite IH. reflexivity.
Qed.

Lemma startswith_refl s : Py.startswith s s = true.
Proof.
  induction s as [|a s IH]; [reflexivity|].
  cbn [Py.startswith]. rewrite Ascii.eqb_refl. exact IH.
Qed.

(** The first token read with [cur] pending begins with [cur]. *)
Lemma split_ws_from_pending s : ∀ cur tok rest,
  cur ≠ [] →
  Py.split_ws_from cur s = tok :: rest →
  Py.startswith tok (string_of_list_ascii (rev cur)) = true.
Proof.
  induction s as [|c s IH]; intros cur tok rest Hcur; cbn [Py.split_ws_from].
  - destruct cur; [congruence|]. intros [= <- <-]. apply startswith_refl.
  - destruct (Py.isspace c).
    + destruct cur; [congruence|]. intros [= <- <-]. apply startswith_refl.
    + intros H. apply IH in H; [|discriminate].
      cbn [rev] in H. rewrite string_of_list_ascii_app in H.
      eapply startswith_app_l, H.
Qed.

(** A line that starts with a text free of whitespace has a first token,
    and the token starts with that text too. *)
Lemma split_ws_from_startswith p : ∀ s cur tok rest,
  p ≠ EmptyString → no_space p = true →
  Py.startswith s p = true →
  Py.split_ws_from cur s = tok :: rest →
  Py.startswith tok (string_of_list_ascii (rev cur) +:+ p) = true.
Proof.
  induction p as [|a p IH]; intros s cur tok rest Hne Hp; [congruence|].
  cbn [Py.startswith no_space] in *.
  destruct s as [|b s]; [discriminate|].
  destruct (Ascii.eqb_spec a b) as [<-|]; [|discriminate].
  apply andb_true_iff in Hp as [Ha Hp]. apply negb_true_iff in Ha.
  intros Hs. cbn [Py.split_ws_from]. rewrite Ha. intros Htok.
  replace (string_of_list_ascii (rev cur) +:+ String a p)
    with (string_of_list_ascii (rev (a :: cur)) +:+ p).
  - destruct p as [|a' p'].
    + rewrite append_empty_r.
      eapply split_ws_from_pending; [|exact Htok]. discriminate.
    + eapply IH; eauto; discriminate.
  - cbn [rev]. rewrite string_of_list_ascii_app.
    generalize (string_of_list_ascii (rev cur)). intros q.
    induction q as [|x q IHq]; [reflexivity|].
    rewrite !append_cons. f_equal. exact IHq.
Qed.

Lemma first_token_startswith p line tok rest :
  p ≠ EmptyString → no_space p = true →
  Py.split_ws line = tok :: rest →
  Py.startswith tok p = false →
  Py.startswith line p = false.
Proof.
  intros Hne Hp Hsplit Htok.
  destruct (Py.startswith line p) eqn:Hline; [|reflexivity].
  pose proof (split_ws_from_startswith p line [] tok rest Hne Hp Hline Hsplit) as H.
  change (Py.startswith tok p = true) in H. congruence.
Qed.

(** The token of an operation line begins as the line does. *)
Lemma op_token_prefix line operation size :
  is_op line = true →
  Py.split_ws line = [operation; size] →
  Py.startswith operation "msm" || Py.startswith operation "fft" = true.
Proof.
  intros [_ Hp]%is_op_branch Hsplit.
  apply orb_true_iff in Hp as [Hp|Hp].
  - rewrite orb_true_iff. left.
    apply (split_ws_from_startswith "msm" line [] operation [size]); auto; discriminate.
  - rewrite orb_true_iff. right.
    apply (split_ws_from_startswith "fft" line [] operation [size]); auto; discriminate.
Qed.

(** The four keys of a task dict that hold no counter dict begin with
    neither [msm] nor [fft]: no operation token is one of them. *)
Lemma other_keys_out_of_reach key :
  In key ["task_name"; "start_time"; "end_time"; "duration"] →
  Py.startswith key "msm" || Py.startswith key "fft" = false.
Proof.
  intros [<-|[<-|[<-|[<-|[]]]]]; reflexivity.
Qed.

(** The operation token [msmx] is neither [msm] nor [fft]; with a task
    open the line is not passed over, it raises [KeyError]. *)
Lemma unknown_op_token_counterexample :
  let line := "msmx 10" +:+ nl in
  let st := State [new_task "a" 1] [] in
  Py.split_ws line = ["msmx"; "10"] ∧
  "msmx" ≠ "msm" ∧ "msmx" ≠ "fft" ∧
  ingest st line = Raise KeyError ∧
  ingest st line ≠ OK st.
Proof.
  intros line st. split; [reflexivity|].
  split; [discriminate|]. split; [discriminate|].
  split; [reflexivity | discriminate].
Qed.

(** C6 (amended). A line that begins with none of [[T], [msm] and [fft]
    is passed over: the state is the same after it and nothing is raised.
    This is so in particular when the first token of the line, where an
    operation kind stands, begins with none of the three. *)
Theorem unrecognized_line_ignored st line :
  (Py.startswith line "[T" = false ∧
   Py.startswith line "msm" = false ∧
   Py.startswith line "fft" = false) ∨
  (∃ tok rest, Py.split_ws line = tok :: rest ∧
     Py.startswith tok "[T" = false ∧
     Py.startswith tok "msm" = false ∧
     Py.startswith tok "fft" = false) →
  ingest st line = OK st.
Proof.
  intros H.
  assert (Hline : Py.startswith line "[T" = false ∧
                  Py.startswith line "msm" = false ∧
                  Py.startswith line "fft" = false).
  { destruct H as [H | (tok & rest & Hsplit & H1 & H2 & H3)]; [exact H|].
    repeat split; eapply first_token_startswith; eauto; discriminate. }
  destruct Hline as (H1 & H2 & H3).
  unfold ingest. rewrite H1, H2, H3. reflexivity.
Qed.

Lemma unrecognized_line_ignored_witness :
  let st := State [new_task "a" 1] [Task "b" 2 3 1 ∅ ∅] in
  ingest st ("sha 10" +:+ nl) = OK st ∧
  ingest st (" msm 10" +:+ nl) = OK st.
Proof.
  intros st. split.
  - apply unrecognized_line_ignored. right.
    exists "sha", ["10"]. repeat split; reflexivity.
  - apply unrecognized_line_ignored. left. repeat split; reflexivity.
Defined.

(** * Further properties of the loop body *)

(** An invariant of the loop body holds after every run that ends. *)
Lemma ingest_all_invariant (P : state → Prop) :
  (∀ st line st', P st → ingest st line = OK st' → P st') →
  ∀ lines st st', P st → ingest_all st lines = OK st' → P st'.
Proof.
  intros Hstep. induction lines as [|line lines IH]; intros st st' HP; simpl.
  - intros [= <-]. exact HP.
  - intros (st1 & H1 & Hrest)%bind_OK_inv. eauto.
Qed.

Lemma ingest_all_raise_app st pre post e :
  ingest_all st pre = Raise e → ingest_all st (pre ++ post) = Raise e.
Proof.
  intros H. rewrite ingest_all_app, H. reflexivity.
Qed.

(** X1. A timed line that has [Start] in it but not [Start ] followed by
    a space (as in [Started], or [Start] at the very end) has no second
    piece to take the name from: once its timestamp is read the iteration
    raises [IndexError], in every state, and the run ends with it. *)
Theorem start_without_marker_raises line t :
  Py.startswith line "[T" = true →
  timestamp line = OK t →
  Py.contains "Start" line = true →
  Py.contains "Start " line = false →
  (∀ st, ingest st line = Raise IndexError) ∧
  (∀ pre post st, ingest_all initial pre = OK st →
     parse_logs (pre ++ line :: post) = Raise IndexError).
Proof.
  intros Ht Hts Hs Hmark.
  assert (Hraise : ∀ st, ingest st line = Raise IndexError).
  { intros st. unfold ingest, start_name.
    rewrite Ht, Hts, bind_OK, Hs, split_item_1 by discriminate.
    destruct (Py.partition "Start " line) as [[b a]|] eqn:Hp; [|reflexivity].
    assert (Py.contains "Start " line = true)
      by (apply contains_partition; rewrite Hp; eauto).
    congruence. }
  split; [exact Hraise|].
  intros pre post st Hpre. eapply parse_logs_abort; eauto.
Qed.

Lemma start_without_marker_raises_witness :
  ingest initial ("[T 3] Started proving" +:+ nl) = Raise IndexError ∧
  parse_logs ["[T 1] Start a" +:+ nl; "[T 3] Start"] = Raise IndexError.
Proof.
  split.
  - apply (proj1 (start_without_marker_raises ("[T 3] Started proving" +:+ nl) 3
                    eq_refl eq_refl eq_refl eq_refl)).
  - apply (proj2 (start_without_marker_raises "[T 3] Start" 3
                    eq_refl eq_refl eq_refl eq_refl)
             ["[T 1] Start a" +:+ nl] [] (State [new_task "a" 1] [])).
    vm_compute. reflexivity.
Defined.

(** X2. An operation line of two tokens whose first token is neither
    [msm] nor [fft] (it only begins like one of them) raises [KeyError]
    when a task is open, and is passed over when none is. *)
Theorem unknown_op_token_raises st line operation size :
  is_op line = true →
  Py.split_ws line = [operation; size] →
  operation ≠ "msm" → operation ≠ "fft" →
  (active_tasks st ≠ [] → ingest st line = Raise KeyError) ∧
  (active_tasks st = [] → ingest st line = OK st).
Proof.
  intros [Ht Hp]%is_op_branch Hsplit Hm Hf.
  assert (Hkey : counter_key operation = None).
  { unfold counter_key.
    destruct (String.eqb_spec operation "msm"); [congruence|].
    destruct (String.eqb_spec operation "fft"); [congruence | reflexivity]. }
  unfold ingest. rewrite Ht, Hp, Hsplit. split.
  - intros Hne. destruct (pop (active_tasks st)) as [[rest top]|] eqn:Hpop.
    + rewrite Hkey. reflexivity.
    + apply pop_None in Hpop. congruence.
  - intros Hact. rewrite Hact. cbn [pop].
    destruct st as [a c]. simpl in Hact. subst a. reflexivity.
Qed.

Lemma unknown_op_token_raises_witness :
  ingest (State [new_task "a" 1] []) ("fft_coset 1024" +:+ nl) = Raise KeyError ∧
  ingest initial ("fft_coset 1024" +:+ nl) = OK initial.
Proof.
  pose proof (unknown_op_token_raises (State [new_task "a" 1] [])
                ("fft_coset 1024" +:+ nl) "fft_coset" "1024" eq_refl eq_refl
                ltac:(discriminate) ltac:(discriminate)) as [H1 _].
  pose proof (unknown_op_token_raises initial
                ("fft_coset 1024" +:+ nl) "fft_coset" "1024" eq_refl eq_refl
                ltac:(discriminate) ltac:(discriminate)) as [_ H2].
  split; [apply H1; discriminate | apply H2; reflexivity].
Defined.

(** X3. A line that begins with [[T] and has neither [Start] nor [Done]
    in it changes nothing, but its timestamp is read all the same: the
    line is passed over exactly when that text is an integer, and raises
    [ValueError] otherwise. *)
Theorem timed_line_without_event st line :
  Py.startswith line "[T" = true →
  Py.contains "Start" line = false →
  Py.contains "Done" line = false →
  ingest st line =
    match Py.int (stamp_text line) with
    | Some _ => OK st
    | None => Raise ValueError
    end.
Proof.
  intros Ht Hs Hd. unfold ingest.
  rewrite Ht, timestamp_stamp_text.
  destruct (Py.int (stamp_text line)); [|reflexivity].
  rewrite bind_OK, Hs, Hd. reflexivity.
Qed.

Lemma timed_line_without_event_witness :
  ingest (State [new_task "a" 1] []) ("[T 9] checkpoint" +:+ nl)
    = OK (State [new_task "a" 1] []) ∧
  ingest (State [new_task "a" 1] []) ("[TODO] tidy up" +:+ nl) = Raise ValueError.
Proof.
  split.
  - apply (timed_line_without_event (State [new_task "a" 1] [])
             ("[T 9] checkpoint" +:+ nl)); reflexivity.
  - apply (timed_line_without_event (State [new_task "a" 1] [])
             ("[TODO] tidy up" +:+ nl)); reflexivity.
Defined.

(** X4. The first exception ends the run: a log whose run raises keeps
    raising the same exception whatever lines are put after it, and
    nothing is printed. *)
Theorem parse_logs_raise_extends pre post e :
  parse_logs pre = Raise e → parse_logs (pre ++ post) = Raise e.
Proof.
  unfold parse_logs. intros H.
  destruct (ingest_all initial pre) as [st|e'] eqn:Hpre; [discriminate|].
  injection H as ->.
  rewrite (ingest_all_raise_app _ _ post _ Hpre). reflexivity.
Qed.

Lemma parse_logs_raise_extends_witness :
  parse_logs (["[T 1] Done a" +:+ nl] ++ ["[T 0] Start a" +:+ nl; "[T 2] Done a" +:+ nl])
    = Raise IndexError.
Proof.
  apply (parse_logs_raise_extends ["[T 1] Done a" +:+ nl]). reflexivity.
Defined.

(** * Invariants of a run *)

Lemma closed_tasks_grow lines st st' :
  ingest_all st lines = OK st' →
  ∃ closed_since, all_tasks st' = all_tasks st ++ closed_since.
Proof.
  intros Hrun.
  apply (ingest_all_invariant
           (fun s => ∃ more, all_tasks s = all_tasks st ++ more)) with lines st;
    [| exists []; rewrite app_nil_r; reflexivity | exact Hrun].
  clear. intros s line s' [more Hs] Hstep.
  apply ingest_cases in Hstep
    as [(_ & t & name & _ & _ & ->) | [(_ & t & rest & top & _ & _ & ->) | (_ & _ & Hall & _)]];
    cbn [all_tasks].
  - eauto.
  - exists (more ++ [close_task t top]). rewrite Hs, app_assoc. reflexivity.
  - rewrite Hall. eauto.
Qed.

(** X5. The closed tasks are only ever appended to: after a run that
    starts in any state, the tasks closed before are still there, in the
    same order and with the same fields, followed by the ones closed
    during the run. *)
Theorem closed_tasks_append_only lines st st' :
  ingest_all st lines = OK st' →
  ∃ closed_since, all_tasks st' = all_tasks st ++ closed_since.
Proof. apply closed_tasks_grow. Qed.

Lemma closed_tasks_append_only_witness :
  ∃ closed_since,
    [Task "a" 0 1 1 ∅ ∅; Task "b" 5 9 4 {["4" := 1%nat]} ∅]
    = [Task "a" 0 1 1 ∅ ∅] ++ closed_since.
Proof.
  apply (closed_tasks_append_only
           ["msm 4" +:+ nl; "[T 9] Done b" +:+ nl]
           (State [Task "b" 5 (-1) (-1) ∅ ∅] [Task "a" 0 1 1 ∅ ∅])
           (State [] [Task "a" 0 1 1 ∅ ∅; Task "b" 5 9 4 {["4" := 1%nat]} ∅])).
  vm_compute. reflexivity.
Defined.

(** X6. While a task is open its [end_time] and [duration] are the
    placeholder [-1]: counting on it does not touch them, and they are set
    only when the task is closed. *)
Theorem open_tasks_have_unset_times lines st :
  ingest_all initial lines = OK st →
  Forall unset_times (active_tasks st).
Proof.
  apply (ingest_all_invariant (fun s => Forall unset_times (active_tasks s)));
    [|constructor].
  clear. intros s line s' Hs Hstep.
  apply ingest_cases in Hstep
    as [(_ & t & name & _ & _ & ->)
       | [(_ & t & rest & top & _ & Ha & ->) | (_ & _ & _ & Hact)]];
    cbn [active_tasks].
  - apply Forall_app. split; [exact Hs|]. repeat constructor.
  - rewrite Ha in Hs. apply Forall_app in Hs as [Hs _]. exact Hs.
  - destruct Hact as [-> | (rest & top & k & size & Ha & ->)]; [exact Hs|].
    rewrite Ha in Hs. apply Forall_app in Hs as [Hrest Htop].
    apply Forall_app. split; [exact Hrest|].
    apply List.Forall_inv in Htop. constructor; [|constructor].
    destruct k; exact Htop.
Qed.

Lemma open_tasks_have_unset_times_witness :
  Forall unset_times [Task "outer" 0 (-1) (-1) ∅ {["8" := 1%nat]}].
Proof.
  apply (open_tasks_have_unset_times
           ["[T 0] Start outer" +:+ nl; "[T 2] Start inner" +:+ nl;
            "[T 3] Done inner" +:+ nl; "fft 8" +:+ nl]
           (State [Task "outer" 0 (-1) (-1) ∅ {["8" := 1%nat]}]
                  [Task "inner" 2 3 1 ∅ ∅])).
  vm_compute. reflexivity.
Defined.

Lemma count_one_positive size (d : gmap string nat) :
  (∀ s n, d !! s = Some n → (1 <= n)%nat) →
  ∀ s n, count_one size d !! s = Some n → (1 <= n)%nat.
Proof.
  intros Hd s n. destruct (decide (s = size)) as [->|Hne].
  - rewrite count_one_same. intros [= <-]. destruct (d !! size); lia.
  - rewrite count_one_other by exact Hne. apply Hd.
Qed.

Lemma set_counters_positive k size t :
  counts_positive t →
  counts_positive (set_counters k (count_one size (counters k t)) t).
Proof.
  intros Ht k' s n.
  destruct k, k'; cbn [set_counters counters msm fft];
    try (apply count_one_positive; intros s' n'); try apply (Ht Msm); try apply (Ht Fft).
Qed.

(** X7. A counter dict never holds a label with count zero: in every task,
    open or closed, each label present has been counted at least once. *)
Theorem counts_are_positive lines st :
  ingest_all initial lines = OK st →
  Forall counts_positive (active_tasks st) ∧ Forall counts_positive (all_tasks st).
Proof.
  apply (ingest_all_invariant
           (fun s => Forall counts_positive (active_tasks s) ∧
                     Forall counts_positive (all_tasks s)));
    [|split; constructor].
  clear. intros s line s' [Ha Hc] Hstep.
  apply ingest_cases in Hstep
    as [(_ & t & name & _ & _ & ->)
       | [(_ & t & rest & top & _ & Hact & ->) | (_ & _ & Hall & Hact)]];
    cbn [active_tasks all_tasks].
  - split; [|exact Hc]. apply Forall_app. split; [exact Ha|].
    constructor; [|constructor].
    intros [] size n; cbn; rewrite lookup_empty; discriminate.
  - rewrite Hact in Ha. apply Forall_app in Ha as [Hrest Htop].
    split; [exact Hrest|]. apply Forall_app. split; [exact Hc|].
    apply List.Forall_inv in Htop. constructor; [|constructor].
    intros k. apply (Htop k).
  - rewrite Hall. split; [|exact Hc].
    destruct Hact as [-> | (rest & top & k & size & Hact & ->)]; [exact Ha|].
    rewrite Hact in Ha. apply Forall_app in Ha as [Hrest Htop].
    apply Forall_app. split; [exact Hrest|].
    apply List.Forall_inv in Htop. constructor; [|constructor].
    by apply set_counters_positive.
Qed.

Lemma counts_are_positive_witness :
  Forall counts_positive [Task "outer" 0 (-1) (-1) ∅ {["8" := 2%nat]}] ∧
  Forall counts_positive [Task "inner" 2 3 1 {["4" := 1%nat]} ∅].
Proof.
  apply (counts_are_positive
           ["[T 0] Start outer" +:+ nl; "fft 8" +:+ nl; "[T 2] Start inner" +:+ nl;
            "msm 4" +:+ nl; "[T 3] Done inner" +:+ nl; "fft 8" +:+ nl]
           (State [Task "outer" 0 (-1) (-1) ∅ {["8" := 2%nat]}]
                  [Task "inner" 2 3 1 {["4" := 1%nat]} ∅])).
  vm_compute. reflexivity.
Defined.

(** * Depth of the stack *)

Lemma run_nesting lines : ∀ st st',
  ingest_all st lines = OK st' →
  nesting (length (active_tasks st)) lines = Some (length (active_tasks st')).
Proof.
  induction lines as [|line lines IH]; intros st st'; simpl.
  - intros [= <-]. reflexivity.
  - intros (st1 & H1 & Hrest)%bind_OK_inv.
    apply ingest_lengths in H1. apply IH in Hrest.
    destruct (is_start line).
    + destruct H1 as [<- _]. exact Hrest.
    + destruct (is_done line).
      * destruct H1 as [-> _]. exact Hrest.
      * destruct H1 as [<- _]. exact Hrest.
Qed.

(** X8. After any run that ends, balanced or not, the depth of the stack
    is the nesting depth of the log (so no completion line came with
    nothing to close), the closed tasks are as many as the completion
    lines, and the start lines are as many as the closed and the open
    tasks together. *)
Theorem stack_depth_accounting lines st :
  ingest_all initial lines = OK st →
  nesting 0 lines = Some (length (active_tasks st)) ∧
  length (all_tasks st) = count is_done lines ∧
  count is_start lines = (length (all_tasks st) + length (active_tasks st))%nat.
Proof.
  intros Hrun. pose proof (run_nesting lines initial st Hrun) as Hn.
  destruct (nesting_run lines initial st _ Hrun Hn) as (_ & Hc & Hs).
  simpl in Hn, Hc, Hs. split; [exact Hn|]. split; lia.
Qed.

Lemma stack_depth_accounting_witness :
  let lines := ["[T 0] Start outer" +:+ nl; "[T 2] Start inner" +:+ nl;
                "[T 3] Done inner" +:+ nl; "[T 4] Start next" +:+ nl] in
  nesting 0 lines = Some 2%nat ∧
  1%nat = count is_done lines ∧
  count is_start lines = 3%nat.
Proof.
  intros lines.
  apply (stack_depth_accounting lines
           (State [new_task "outer" 0; new_task "next" 4] [Task "inner" 2 3 1 ∅ ∅])).
  vm_compute. reflexivity.
Defined.

Lemma unbalanced_run lines : ∀ st,
  forallb readable lines = true →
  nesting (length (active_tasks st)) lines = None →
  ingest_all st lines = Raise IndexError.
Proof.
  induction lines as [|line lines IH]; intros st; simpl; [discriminate|].
  intros [Hr Hrs]%andb_true_iff Hn.
  destruct (is_start line) eqn:Hs.
  - destruct (ingest_readable st line Hr) as [st1 H1].
    { intros Hd. apply start_not_done in Hs. congruence. }
    rewrite H1, bind_OK. apply IH; [exact Hrs|].
    apply ingest_lengths in H1. rewrite Hs in H1. destruct H1 as [-> _]. exact Hn.
  - destruct (is_done line) eqn:Hd.
    + destruct (active_tasks st) as [|t0 rest0] eqn:Hact.
      * clear IH Hn. unfold is_done in Hd. unfold readable in Hr. unfold ingest.
        destruct (Py.startswith line "[T"); [|discriminate].
        destruct (Py.contains "Start" line); [discriminate|].
        destruct (Py.contains "Done" line); [|discriminate].
        destruct (timestamp line); [|discriminate].
        rewrite bind_OK, Hact. reflexivity.
      * destruct (ingest_readable st line Hr) as [st1 H1]; [rewrite Hact; discriminate|].
        rewrite H1, bind_OK. apply IH; [exact Hrs|].
        apply ingest_lengths in H1. rewrite Hs, Hd, Hact in H1.
        destruct H1 as [H1 _]. simpl in H1. injection H1 as <-. exact Hn.
    + destruct (ingest_readable st line Hr) as [st1 H1]; [congruence|].
      rewrite H1, bind_OK. apply IH; [exact Hrs|].
      apply ingest_lengths in H1. rewrite Hs, Hd in H1. destruct H1 as [-> _]. exact Hn.
Qed.

(** X9. On a log whose lines are all readable the only exception left is
    the one of a completion line with nothing to close: the run ends
    normally exactly when the nesting depth never goes below zero, and
    otherwise [parse_logs] raises [IndexError]. *)
Theorem readable_log_outcome lines :
  forallb readable lines = true →
  ((∃ st, ingest_all initial lines = OK st) ↔ is_Some (nesting 0 lines)) ∧
  (nesting 0 lines = None → parse_logs lines = Raise IndexError).
Proof.
  intros Hr. split; [split|].
  - intros [st Hrun]. pose proof (run_nesting lines initial st Hrun) as Hn.
    simpl in Hn. rewrite Hn. eauto.
  - intros [d Hd]. exact (nesting_readable_run lines initial d Hr Hd).
  - intros Hn. unfold parse_logs.
    rewrite (unbalanced_run lines initial Hr Hn). reflexivity.
Qed.

Lemma readable_log_outcome_witness :
  parse_logs ["[T 0] Start a" +:+ nl; "[T 1] Done a" +:+ nl; "[T 2] Done b" +:+ nl;
              "[T 3] Start c" +:+ nl]
    = Raise IndexError.
Proof.
  apply (proj2 (readable_log_outcome
                  ["[T 0] Start a" +:+ nl; "[T 1] Done a" +:+ nl; "[T 2] Done b" +:+ nl;
                   "[T 3] Start c" +:+ nl] eq_refl)).
  reflexivity.
Defined.

(** * Durations *)

Lemma is_start_timed line : is_start line = true → Py.startswith line "[T" = true.
Proof.
  unfold is_start. intros [H _]%andb_true_iff. exact H.
Qed.

Lemma is_done_timed line : is_done line = true → Py.startswith line "[T" = true.
Proof.
  unfold is_done. intros [[H _]%andb_true_iff _]%andb_true_iff. exact H.
Qed.

(** X10. The code never checks that a task ends after it starts; what
    keeps durations from being negative is the log: when timestamps never
    go back from one timed line to a later one, every closed task has
    [start_time <= end_time] and a duration of at least zero. Lines that
    do not begin with [[T] play no part, whatever digits they hold. *)
Theorem durations_nonnegative lines st t :
  timestamps_monotone lines →
  ingest_all initial lines = OK st →
  In t (all_tasks st) →
  start_time t <= end_time t ∧ 0 <= duration t.
Proof.
  intros Hmono Hrun Ht. apply provenance_run in Hrun as [_ Hclosed].
  destruct (Hclosed t Ht)
    as (Hdur & i & j & Hij & (ls & Hi & Hs & Hts & _) & (ld & Hj & Hd & Hte)).
  pose proof (Hmono i j ls ld _ _ Hij Hi Hj
                (is_start_timed _ Hs) (is_done_timed _ Hd) Hts Hte).
  lia.
Qed.

Lemma durations_nonnegative_witness :
  start_time (Task "a" 3 7 4 {["10" := 1%nat]} ∅)
    <= end_time (Task "a" 3 7 4 {["10" := 1%nat]} ∅) ∧
  0 <= duration (Task "a" 3 7 4 {["10" := 1%nat]} ∅).
Proof.
  apply (durations_nonnegative
           ["[T 3] Start a" +:+ nl; "msm 10" +:+ nl; "[T 7] Done a" +:+ nl]
           (State [] [Task "a" 3 7 4 {["10" := 1%nat]} ∅])).
  - intros i j li lj ti tj Hij Hi Hj Hsi Hsj Hti Htj.
    destruct i as [|[|[|i]]]; destruct j as [|[|[|j]]];
      try lia; simpl in Hi, Hj; try discriminate;
      injection Hi as <-; injection Hj as <-;
      try (vm_compute in Hsi; discriminate);
      try (vm_compute in Hsj; discriminate).
    vm_compute in Hti, Htj. injection Hti as <-. injection Htj as <-. lia.
  - vm_compute. reflexivity.
  - left. reflexivity.
Defined.

(** The operation line of that log reads as a timestamp too, and a larger
    one than the completion line after it: without the test for [[T] the
    log would not count as monotone. *)
Example operation_line_reads_as_stamp :
  timestamp ("msm 10" +:+ nl) = OK 10 ∧ Py.startswith ("msm 10" +:+ nl) "[T" = false.
Proof. split; reflexivity. Qed.

(** * The selection *)

Lemma scan_slowest_None name l :
  scan_slowest name l = None ↔ ∀ x, In x l → task_name x ≠ name.
Proof.
  induction l as [|t l IH]; simpl.
  - split; [intros _ x [] | reflexivity].
  - destruct (String.eqb_spec (task_name t) name) as [Hn|Hn].
    + split.
      * destruct (scan_slowest name l) as [b|]; [destruct (duration b <=? duration t)|];
          discriminate.
      * intros H. destruct (H t (or_introl eq_refl) Hn).
    + rewrite IH. split.
      * intros H x [<-|Hx]; auto.
      * intros H x Hx. apply H. auto.
Qed.

Lemma scan_slowest_split name l : ∀ r,
  scan_slowest name l = Some r →
  ∃ l1 l2, l = l1 ++ r :: l2 ∧ task_name r = name ∧
    (∀ x, In x l1 → task_name x = name → duration x < duration r) ∧
    (∀ x, In x l2 → task_name x = name → duration x <= duration r).
Proof.
  induction l as [|t l IH]; intros r; simpl; [discriminate|].
  destruct (String.eqb_spec (task_name t) name) as [Hn|Hn].
  - destruct (scan_slowest name l) as [b|] eqn:Hb.
    + destruct (IH b eq_refl) as (l1 & l2 & -> & Hbn & Hlt & Hle).
      destruct (Z.leb_spec (duration b) (duration t)) as [Hbt|Hbt]; intros [= <-].
      * exists [], (l1 ++ b :: l2). repeat split; [exact Hn | intros x [] |].
        intros x [Hx | [<- | Hx]]%in_app_iff Hxn; [|lia|].
        -- specialize (Hlt x Hx Hxn). lia.
        -- specialize (Hle x Hx Hxn). lia.
      * exists (t :: l1), l2. repeat split; [exact Hbn | | exact Hle].
        intros x [<-|Hx] Hxn; [lia | auto].
    + intros [= <-]. exists [], l. repeat split; [exact Hn | intros x [] |].
      intros x Hx Hxn. destruct (proj1 (scan_slowest_None name l) Hb x Hx Hxn).
  - intros Hr. destruct (IH r Hr) as (l1 & l2 & -> & Hrn & Hlt & Hle).
    exists (t :: l1), l2. repeat split; [exact Hrn | | exact Hle].
    intros x [<-|Hx] Hxn; [congruence | auto].
Qed.

(** X11. Sorting all closed tasks by [duration * -1] and taking the first
    one of the name gives the same task as one pass over the unsorted list
    that keeps a running maximum and lets a task replace it when it lasted
    at least as long as every later one of the name. *)
Theorem slowest_is_one_pass_scan name tasks :
  slowest name tasks = scan_slowest name tasks.
Proof. apply slowest_scan. Qed.

(** X12. What the selection returns: the task [r] is returned for a name
    exactly when [r] has that name, every task of the name closed before
    it lasted strictly less and every task of the name closed after it
    lasted no longer; and nothing is returned exactly when no closed task
    has the name. *)
Theorem slowest_characterised name tasks :
  (∀ r, slowest name tasks = Some r ↔
     ∃ l1 l2, tasks = l1 ++ r :: l2 ∧ task_name r = name ∧
       (∀ x, In x l1 → task_name x = name → duration x < duration r) ∧
       (∀ x, In x l2 → task_name x = name → duration x <= duration r)) ∧
  (slowest name tasks = None ↔ ∀ x, In x tasks → task_name x ≠ name).
Proof.
  split.
  - intros r. split.
    + rewrite slowest_scan. apply scan_slowest_split.
    + intros (l1 & l2 & -> & Hn & Hlt & Hle). by apply slowest_first_longest.
  - rewrite slowest_scan. apply scan_slowest_None.
Qed.

(** X13. What [parse_logs] prints: when the run ends normally and a task
    is printed, it is a closed task of the log named
    [committing to advice columns], with [duration = end_time -
    start_time], and no closed task of that name lasted longer; tasks
    still open at the end are never printed. When nothing is printed, no
    closed task has that name. *)
Theorem parse_logs_output lines out :
  parse_logs lines = OK out →
  ∃ st, ingest_all initial lines = OK st ∧
    match out with
    | Some t =>
        In t (all_tasks st) ∧ task_name t = target ∧
        duration t = end_time t - start_time t ∧
        (∀ x, In x (all_tasks st) → task_name x = target → duration x <= duration t)
    | None => ∀ x, In x (all_tasks st) → task_name x ≠ target
    end.
Proof.
  unfold parse_logs. intros (st & Hrun & [= <-])%bind_OK_inv.
  exists st. split; [exact Hrun|].
  fold target. destruct (slowest target (all_tasks st)) as [t|] eqn:Hsel.
  - rewrite slowest_scan in Hsel.
    destruct (scan_slowest_split _ _ _ Hsel) as (l1 & l2 & Hl & Hn & Hlt & Hle).
    assert (Hin : In t (all_tasks st)) by (rewrite Hl, in_app_iff; simpl; auto).
    split; [exact Hin|]. split; [exact Hn|]. split.
    + apply provenance_run in Hrun as [_ Hclosed]. apply (Hclosed t Hin).
    + intros x Hx Hxn. rewrite Hl in Hx.
      apply in_app_iff in Hx as [Hx | [<- | Hx]]; [|lia|auto].
      specialize (Hlt x Hx Hxn). lia.
  - rewrite slowest_scan in Hsel. apply scan_slowest_None, Hsel.
Qed.

Lemma parse_logs_output_witness :
  ∃ st,
    ingest_all initial
      [ "[T 0] Start committing to advice columns" +:+ nl; "[T 4] Done" +:+ nl;
        "[T 5] Start committing to advice columns" +:+ nl ] = OK st ∧
    In (Task target 0 4 4 ∅ ∅) (all_tasks st) ∧
    task_name (Task target 0 4 4 ∅ ∅) = target ∧
    duration (Task target 0 4 4 ∅ ∅)
      = end_time (Task target 0 4 4 ∅ ∅) - start_time (Task target 0 4 4 ∅ ∅) ∧
    (∀ x, In x (all_tasks st) → task_name x = target →
          duration x <= duration (Task target 0 4 4 ∅ ∅)).
Proof.
  apply (parse_logs_output
           [ "[T 0] Start committing to advice columns" +:+ nl; "[T 4] Done" +:+ nl;
             "[T 5] Start committing to advice columns" +:+ nl ]
           (Some (Task target 0 4 4 ∅ ∅))).
  vm_compute. reflexivity.
Defined.

Lemma StronglySorted_weaken {A} (R S : A → A → Prop) l :
  (∀ a b, R a b → S a b) → StronglySorted R l → StronglySorted S l.
Proof.
  intros HRS. induction 1 as [|a l Hl IH Ha]; constructor; [exact IH|].
  eapply Forall_impl; [exact Ha|]. auto.
Qed.

(** X14. The list the code sorts, [sorted(all_tasks, key = duration * -1)],
    holds the same tasks as before, longest first, and tasks of equal
    duration stay in the order in which they were closed. *)
Theorem sort_by_duration tasks :
  let by_duration := sorted (fun t => duration t * -1) tasks in
  Permutation tasks by_duration ∧
  StronglySorted (fun a b => duration b <= duration a) by_duration ∧
  (∀ d, List.filter (fun t => duration t =? d) by_duration
        = List.filter (fun t => duration t =? d) tasks).
Proof.
  intros by_duration. subst by_duration. split; [apply sorted_perm|]. split.
  - eapply StronglySorted_weaken; [|apply sorted_ascending].
    simpl. intros a b Hab. lia.
  - intros d.
    pose proof (sorted_stable (fun t => duration t * -1) (d * -1) tasks) as Hst.
    erewrite (List.filter_ext _ (fun t => duration t * -1 =? d * -1)),
             (List.filter_ext (fun t => duration t =? d)
                              (fun t => duration t * -1 =? d * -1)); [exact Hst | |];
      intros a; destruct (Z.eqb_spec (duration a) d),
                         (Z.eqb_spec (duration a * -1) (d * -1)); (reflexivity || lia).
Qed.

(** * No event lost, none counted twice *)

Lemma dict_total_empty : dict_total ∅ = 0%nat.
Proof. apply map_fold_empty. Qed.

Lemma dict_total_insert_new size n (d : gmap string nat) :
  d !! size = None → dict_total (<[size := n]> d) = (n + dict_total d)%nat.
Proof.
  intros Hnew. unfold dict_total.
  rewrite map_fold_insert_L; [reflexivity | intros; cbv beta; lia | exact Hnew].
Qed.

Lemma dict_total_count_one size (d : gmap string nat) :
  dict_total (count_one size d) = S (dict_total d).
Proof.
  unfold count_one. destruct (d !! size) as [n|] eqn:Hd.
  - rewrite <- insert_delete_eq.
    rewrite dict_total_insert_new by apply lookup_delete_eq.
    unfold dict_total.
    rewrite (map_fold_delete_L _ _ size n d); [cbv beta; lia | intros; cbv beta; lia | exact Hd].
  - rewrite dict_total_insert_new by exact Hd. reflexivity.
Qed.

Lemma kind_total_snoc k tasks t :
  kind_total k (tasks ++ [t]) = (kind_total k tasks + dict_total (counters k t))%nat.
Proof.
  unfold kind_total. rewrite sum_list_with_app. simpl. lia.
Qed.

Lemma op_kind_eqb_eq a b : op_kind_eqb a b = true ↔ a = b.
Proof. destruct a, b; simpl; split; congruence. Qed.

(** What one line adds to the events of kind [k] held by the state. *)
Lemma ingest_total k st line st' :
  ingest st line = OK st' →
  state_total k st' =
    (state_total k st +
     if is_start line then 0
     else if is_done line then 0
     else match line_kind line with
          | Some k' =>
              if op_kind_eqb k' k && (0 <? length (active_tasks st))%nat then 1 else 0
          | None => 0
          end)%nat.
Proof.
  unfold ingest, is_start, is_done, line_kind, is_op, state_total.
  destruct (Py.startswith line "[T") eqn:Ht; cbn [negb andb].
  - destruct (timestamp line) as [t|e]; [rewrite bind_OK | discriminate].
    destruct (Py.contains "Start" line).
    + destruct (start_name line) as [name|e]; [rewrite bind_OK | discriminate].
      intros [= <-]. cbn [active_tasks all_tasks].
      rewrite kind_total_snoc.
      replace (counters k (new_task name t)) with (∅ : gmap string nat)
        by (destruct k; reflexivity).
      rewrite dict_total_empty. lia.
    + destruct (Py.contains "Done" line); cbn [negb andb].
      * destruct (pop (active_tasks st)) as [[rest top]|] eqn:Hp; [|discriminate].
        intros [= <-]. apply pop_Some in Hp. rewrite Hp. cbn [active_tasks all_tasks].
        rewrite !kind_total_snoc.
        replace (counters k (close_task t top)) with (counters k top)
          by (destruct k; reflexivity).
        lia.
      * intros [= <-]. lia.
  - destruct (Py.startswith line "msm" || Py.startswith line "fft").
    + destruct (Py.split_ws line) as [|operation [|size [|? ?]]]; try discriminate.
      destruct (pop (active_tasks st)) as [[rest top]|] eqn:Hp.
      * destruct (counter_key operation) as [k0|]; [|discriminate].
        intros [= <-]. apply pop_Some in Hp. rewrite Hp. cbn [active_tasks all_tasks].
        rewrite !kind_total_snoc, length_app. cbn [length].
        replace (0 <? length rest + 1)%nat with true
          by (symmetry; apply Nat.ltb_lt; lia).
        rewrite andb_true_r.
        destruct k0, k; cbn [op_kind_eqb set_counters counters msm fft];
          rewrite ?dict_total_count_one; lia.
      * intros [= <-]. apply pop_None in Hp. rewrite Hp. cbn [length].
        destruct (counter_key operation); rewrite ?andb_false_r; lia.
    + intros [= <-]. lia.
Qed.

Lemma run_total k lines : ∀ st st',
  ingest_all st lines = OK st' →
  state_total k st' =
    (state_total k st + counted k (length (active_tasks st)) lines)%nat.
Proof.
  induction lines as [|line lines IH]; intros st st'; simpl.
  - intros [= <-]. lia.
  - intros (st1 & H1 & Hrest)%bind_OK_inv.
    pose proof (ingest_total k _ _ _ H1) as Hstep.
    pose proof (ingest_lengths _ _ _ H1) as Hlen.
    specialize (IH _ _ Hrest). rewrite IH, Hstep.
    destruct (is_start line).
    + destruct Hlen as [-> _]. lia.
    + destruct (is_done line).
      * destruct Hlen as [-> _]. simpl. lia.
      * destruct Hlen as [-> _]. lia.
Qed.

(** X15. No event is lost and none is counted twice: after a run that
    ends, the counts of [msm] (of [fft]) summed over all tasks, open and
    closed, are the number of [msm] ([fft]) lines met while a task was
    open; the ones met with no task open are the only ones left out. *)
Theorem events_are_conserved k lines st :
  ingest_all initial lines = OK st →
  state_total k st = counted k 0 lines.
Proof.
  intros Hrun. rewrite (run_total k lines initial st Hrun). reflexivity.
Qed.

Lemma events_are_conserved_witness :
  let st := State [Task "outer" 0 (-1) (-1) {["4" := 1%nat]} {["8" := 2%nat]}]
                  [Task "inner" 2 3 1 {["4" := 2%nat; "16" := 1%nat]} ∅] in
  let lines := ["msm 4" +:+ nl; "[T 0] Start outer" +:+ nl; "fft 8" +:+ nl;
                "[T 2] Start inner" +:+ nl; "msm 4" +:+ nl; "msm 16" +:+ nl;
                "msm 4" +:+ nl; "[T 3] Done inner" +:+ nl; "fft 8" +:+ nl;
                "msm 4" +:+ nl] in
  state_total Msm st = counted Msm 0 lines ∧ state_total Fft st = counted Fft 0 lines.
Proof.
  intros st lines. split.
  - apply (events_are_conserved Msm lines st). vm_compute. reflexivity.
  - apply (events_are_conserved Fft lines st). vm_compute. reflexivity.
Defined.

Example events_are_conserved_values :
  counted Msm 0 ["msm 4" +:+ nl; "[T 0] Start outer" +:+ nl; "msm 4" +:+ nl;
                 "fft 8" +:+ nl; "[T 3] Done outer" +:+ nl; "msm 4" +:+ nl] = 1%nat.
Proof. reflexivity. Qed.

(** * Matching a start line with its completion line *)

(** X16. A completion line is read for its timestamp only: whatever else
    it says, the task name after [Done] included, is not compared with the
    task being closed. Two completion lines with the same timestamp have
    the same effect in every state. *)
Theorem completion_line_text_ignored st line line' t :
  is_done line = true → is_done line' = true →
  timestamp line = OK t → timestamp line' = OK t →
  ingest st line = ingest st line'.
Proof.
  unfold is_done, ingest. intros Hd Hd' Hts Hts'.
  destruct (Py.startswith line "[T"); [|discriminate].
  destruct (Py.startswith line' "[T"); [|discriminate].
  destruct (Py.contains "Start" line); [discriminate|].
  destruct (Py.contains "Start" line'); [discriminate|].
  destruct (Py.contains "Done" line); [|discriminate].
  destruct (Py.contains "Done" line'); [|discriminate].
  rewrite Hts, Hts'. reflexivity.
Qed.

Lemma completion_line_text_ignored_witness :
  ingest (State [new_task "outer" 0; new_task "inner" 5] []) ("[T 8] Done inner" +:+ nl)
  = ingest (State [new_task "outer" 0; new_task "inner" 5] []) ("[T 8] Done outer" +:+ nl).
Proof.
  apply (completion_line_text_ignored
           (State [new_task "outer" 0; new_task "inner" 5] [])
           ("[T 8] Done inner" +:+ nl) ("[T 8] Done outer" +:+ nl) 8); reflexivity.
Defined.

Lemma same_identity_refl t : same_identity t t.
Proof. repeat split. Qed.

Lemma same_identity_trans t1 t2 t3 :
  same_identity t1 t2 → same_identity t2 t3 → same_identity t1 t3.
Proof.
  unfold same_identity. intros (? & ? & ? & ?) (? & ? & ? & ?).
  repeat split; congruence.
Qed.

Lemma same_identity_set_counters k d t : same_identity t (set_counters k d t).
Proof. destruct k; repeat split. Qed.

Lemma Forall2_same_identity_refl l : Forall2 same_identity l l.
Proof. induction l; constructor; auto using same_identity_refl. Qed.

Lemma Forall2_same_identity_trans l1 : ∀ l2 l3,
  Forall2 same_identity l1 l2 → Forall2 same_identity l2 l3 →
  Forall2 same_identity l1 l3.
Proof.
  induction l1 as [|a l1 IH]; intros l2 l3 H12 H23.
  - inversion H12; subst. inversion H23; subst. constructor.
  - inversion H12 as [|? b ? l2' Hab Hl]; subst.
    inversion H23 as [|? c ? l3' Hbc Hl']; subst.
    constructor; eauto using same_identity_trans.
Qed.

Lemma snoc_cases {A} (l : list A) : l = [] ∨ ∃ l' x, l = l' ++ [x].
Proof.
  induction l as [|x l IH] using rev_ind; [left; reflexivity | right; eauto].
Qed.

(** A stretch of log run at depth [d] above a base stack leaves the base
    in place: the same tasks in the same order, counters apart. *)
Lemma nested_segment lines : ∀ d d' st st' base above,
  nesting d lines = Some d' →
  active_tasks st = base ++ above → length above = d →
  ingest_all st lines = OK st' →
  ∃ base' above',
    active_tasks st' = base' ++ above' ∧ length above' = d' ∧
    Forall2 same_identity base base'.
Proof.
  induction lines as [|line lines IH]; intros d d' st st' base above; simpl.
  - intros [= <-] Hact Hlen [= <-]. exists base, above.
    auto using Forall2_same_identity_refl.
  - intros Hn Hact Hlen (st1 & H1 & Hrest)%bind_OK_inv.
    apply ingest_cases in H1
      as [(Hs & t & name & _ & _ & ->)
         | [(Hd & t & rest & top & _ & Ha & ->) | (Hs & Hd & _ & Hact1)]].
    + rewrite Hs in Hn.
      refine (IH _ _ _ _ base (above ++ [new_task name t]) Hn _ _ Hrest).
      * cbn [active_tasks]. rewrite Hact, app_assoc. reflexivity.
      * rewrite length_app. simpl. lia.
    + assert (Hs : is_start line = false).
      { destruct (is_start line) eqn:Hs; [|reflexivity].
        apply start_not_done in Hs. congruence. }
      rewrite Hs, Hd in Hn. destruct d as [|d0]; [discriminate|].
      destruct (snoc_cases above) as [-> | (above0 & x & ->)]; [discriminate|].
      rewrite length_app in Hlen. simpl in Hlen.
      rewrite Hact, app_assoc in Ha. apply app_inj_tail in Ha as [Ha _].
      refine (IH _ _ _ _ base above0 Hn _ _ Hrest); [|lia].
      cbn [active_tasks]. symmetry. exact Ha.
    + rewrite Hs, Hd in Hn.
      destruct Hact1 as [Hact1 | (rest & top & k & size & Ha & Hact1)].
      * refine (IH _ _ _ _ base above Hn _ Hlen Hrest). congruence.
      * destruct (snoc_cases above) as [-> | (above0 & x & ->)].
        -- rewrite app_nil_r in Hact. rewrite Hact in Ha. subst base.
           destruct (IH _ _ _ _
                       (rest ++ [set_counters k (count_one size (counters k top)) top])
                       [] Hn (eq_trans Hact1 (eq_sym (app_nil_r _))) Hlen Hrest)
             as (base' & above' & Hact' & Hlen' & Hbase').
           exists base', above'. split; [exact Hact'|]. split; [exact Hlen'|].
           eapply Forall2_same_identity_trans; [|exact Hbase'].
           rewrite Ha.
           apply Forall2_app; [apply Forall2_same_identity_refl|].
           constructor; [apply same_identity_set_counters | constructor].
        -- rewrite Hact, app_assoc in Ha. apply app_inj_tail in Ha as [Ha ->].
           refine (IH _ _ _ _ base
                     (above0 ++ [set_counters k (count_one size (counters k top)) top])
                     Hn _ _ Hrest).
           ++ rewrite Hact1, <- Ha, app_assoc. reflexivity.
           ++ rewrite length_app in *. simpl in *. lia.
Qed.

(** X17. A start line, a well-nested stretch of log and then a completion
    line: the completion line closes the task the start line opened. The
    run appends, after the tasks closed inside the stretch, one task with
    the name and timestamp of the start line, the timestamp of the
    completion line as [end_time] and their difference as [duration]; the
    tasks open before are all still open, in the same order. *)
Theorem matched_pair_closes_own_task st s inner d st' :
  is_start s = true → well_nested inner → is_done d = true →
  ingest_all st (s :: inner ++ [d]) = OK st' →
  ∃ name t_start t_end closed_inside msm_counts fft_counts,
    start_name s = OK name ∧ timestamp s = OK t_start ∧ timestamp d = OK t_end ∧
    Forall2 same_identity (active_tasks st) (active_tasks st') ∧
    all_tasks st' =
      all_tasks st ++ closed_inside ++
      [Task name t_start t_end (t_end - t_start) msm_counts fft_counts].
Proof.
  intros Hs Hwn Hd Hrun. cbn [ingest_all] in Hrun.
  apply bind_OK_inv in Hrun as (st1 & H1 & Hrun).
  rewrite ingest_all_app in Hrun.
  apply bind_OK_inv in Hrun as (st2 & H2 & H3).
  cbn [ingest_all] in H3. apply bind_OK_inv in H3 as (st3 & H3 & [= <-]).
  apply ingest_cases in H1
    as [(_ & t & name & Hts & Hname & ->)
       | [(Hd1 & _) | (Hs1 & _)]];
    [| apply start_not_done in Hs; congruence | congruence].
  destruct (closed_tasks_grow _ _ _ H2) as [closed_inside Hclosed].
  cbn [all_tasks] in Hclosed.
  destruct (nested_segment inner 0 0
              (State (active_tasks st ++ [new_task name t]) (all_tasks st)) st2
              (active_tasks st ++ [new_task name t]) []
              Hwn (eq_sym (app_nil_r _)) eq_refl H2)
    as (base' & above' & Hact2 & Hlen & Hbase).
  destruct above'; [|discriminate]. rewrite app_nil_r in Hact2.
  apply Forall2_app_inv_l in Hbase as (open' & mine & Hopen & Hmine & ->).
  inversion Hmine as [|? top' ? tl Hid Htl]; subst. inversion Htl; subst.
  apply ingest_cases in H3
    as [(Hs3 & _) | [(_ & t_end & rest & top & Hte & Ha & ->) | (_ & Hd3 & _)]];
    [apply start_not_done in Hs3; congruence | | congruence].
  rewrite Hact2 in Ha. apply app_inj_tail in Ha as [<- <-].
  destruct Hid as (Hn & Hst & _ & _). cbn [new_task task_name start_time] in Hn, Hst.
  exists name, t, t_end, closed_inside, (msm top'), (fft top').
  split; [exact Hname|]. split; [exact Hts|]. split; [exact Hte|].
  split; [exact Hopen|].
  cbn [all_tasks]. rewrite Hclosed, <- app_assoc.
  unfold close_task. rewrite Hn, Hst. reflexivity.
Qed.

Lemma matched_pair_closes_own_task_witness :
  ∃ name t_start t_end closed_inside msm_counts fft_counts,
    start_name ("[T 2] Start outer" +:+ nl) = OK name ∧
    timestamp ("[T 2] Start outer" +:+ nl) = OK t_start ∧
    timestamp ("[T 9] Done" +:+ nl) = OK t_end ∧
    Forall2 same_identity [new_task "root" 0] [new_task "root" 0] ∧
    [Task "inner" 3 5 2 ∅ ∅; Task "outer" 2 9 7 {["4" := 1%nat]} ∅] =
      [] ++ closed_inside ++
      [Task name t_start t_end (t_end - t_start) msm_counts fft_counts].
Proof.
  apply (matched_pair_closes_own_task
           (State [new_task "root" 0] [])
           ("[T 2] Start outer" +:+ nl)
           ["[T 3] Start inner" +:+ nl; "[T 5] Done" +:+ nl; "msm 4" +:+ nl]
           ("[T 9] Done" +:+ nl)
           (State [new_task "root" 0]
                  [Task "inner" 3 5 2 ∅ ∅; Task "outer" 2 9 7 {["4" := 1%nat]} ∅]));
    reflexivity.
Defined.
